(** * Inclusive-learning web application: gesture translator, authentication
      context and caption auto-save

    A shallow embedding of the TypeScript sources
    - [src/components/SignLanguageTranslator.tsx]
      ([detectGesture], [getTranslationFromGestures], [clearTranslation]),
    - [src/context/AuthContext.tsx] and its second copy
      ([fetchUserRole], [signUpWithEmail], [signOut]),
    - [src/pages/VideoCaptioning.tsx] ([formatTime], [autoSaveCaptions]),
    - the SQL set-up script ([handle_new_user] and its trigger),
    followed by the properties the specification states about them.

    JavaScript numbers are IEEE-754 binary64 values, modelled by Rocq's
    primitive floats; a call that may raise is modelled by a completion
    ([Normal] or [Throw]); React state is a record threaded through the
    handlers; the hosted backend's answers are inputs of the handlers. *)

From stdpp Require Import gmap strings list pretty sorting.
From Stdlib Require Import ZArith.
From Stdlib Require Import Floats.PrimFloat Floats.SpecFloat Floats.FloatOps
  Floats.FloatAxioms.

Set Warnings "-inexact-float,-clear-no-such-hyp".
Set Default Proof Using "Type".

Local Open Scope string_scope.

(* ===================================================================== *)
(** * Part I. The JavaScript run time, as far as the sources rely on it   *)
(* ===================================================================== *)

Module JS.

(** Exceptions the modelled code can raise or let through. *)
Inductive error : Type :=
| TypeError (msg : string)      (* property read on [undefined] *)
| Raised (msg : string).        (* [throw error] of a backend error object *)

(** Result of evaluating a call: a value, or an exception in flight. *)
Inductive completion (A : Type) : Type :=
| Normal (a : A)
| Throw (e : error).
Arguments Normal {A} a.
Arguments Throw {A} e.

#[global] Instance completion_ret : MRet completion := @Normal.
#[global] Instance completion_bind : MBind completion :=
  λ A B f c, match c with Normal a => f a | Throw e => Throw e end.

(** The values a table lookup [obj[key]] on an object literal of strings
    can produce: an own string, a member inherited from
    [Object.prototype], or [undefined]. *)
Inductive value : Type :=
| VUndefined
| VString (s : string)
| VInherited (name : string).

(** ToBoolean. *)
Definition truthy (v : value) : bool :=
  match v with
  | VUndefined => false
  | VString s => negb (bool_decide (s = ""))
  | VInherited _ => true
  end.

(** [a || b]. *)
Definition or_else (a b : value) : value := if truthy a then a else b.

(** Property names every object literal inherits from [Object.prototype]. *)
Definition Object_prototype : list string :=
  [ "constructor"; "__defineGetter__"; "__defineSetter__"; "hasOwnProperty";
    "__lookupGetter__"; "__lookupSetter__"; "isPrototypeOf";
    "propertyIsEnumerable"; "toString"; "valueOf"; "__proto__";
    "toLocaleString" ].

(** [obj[key]] for an object literal [obj : Record<string, string>]:
    own properties first, then the prototype. *)
Definition get (obj : gmap string string) (key : string) : value :=
  match obj !! key with
  | Some s => VString s
  | None =>
      if bool_decide (key ∈ Object_prototype) then VInherited key
      else VUndefined
  end.

(** Property key for [obj[e]] when [e] is a string or [undefined]. *)
Definition ToPropertyKey (e : option string) : string :=
  match e with Some s => s | None => "undefined" end.

(** [arr.slice(-n)]: the last [n] elements, or all of them. *)
Definition slice_last {A} (n : nat) (arr : list A) : list A :=
  drop (length arr - n) arr.

(** [arr.join(sep)] for an array of strings. *)
Fixpoint join (sep : string) (arr : list string) : string :=
  match arr with
  | [] => ""
  | [s] => s
  | s :: rest => s +:+ sep +:+ join sep rest
  end.

(** [arr[arr.length - 1]]: the last element, [undefined] on [[]]. *)
Definition last_elem {A} (arr : list A) : option A := last arr.

(** [Math.pow(v, 2)].  ECMA-262 leaves the precision of [Math.pow] to
    the implementation; the model takes the correctly rounded square. *)
Definition Math_pow2 (v : float) : float := (v * v)%float.

(** [a > b] on numbers is [b < a] (both false on NaN). *)
Definition gt (a b : float) : bool := (b <? a)%float.
Definition lt (a b : float) : bool := (a <? b)%float.

(** [s.length] counts UTF-16 code units.  A string is kept as the bytes
    of its UTF-8 encoding: the first byte of a code point of one to
    three bytes stands for one code unit, the first byte of a code point
    of four bytes for a surrogate pair, a continuation byte for none. *)
Definition code_units (b : Ascii.ascii) : nat :=
  let n := Ascii.N_of_ascii b in
  if (n <? 128)%N then 1
  else if (n <? 192)%N then 0
  else if (n <? 240)%N then 1
  else 2.

Fixpoint String_length (s : string) : nat :=
  match s with
  | EmptyString => 0
  | String b rest => code_units b + String_length rest
  end.

End JS.

Import JS.

(** Number formatting, as [formatTime] uses it.  A finite non-zero double
    is [m * 2^e] with [m] a positive integer ([Prim2SF]); the functions
    below compute on that representation with exact integer arithmetic. *)
Module JSNumber.
Local Open Scope Z_scope.

(** [Math.floor(v)]. *)
Definition Math_floor (v : float) : float :=
  match Prim2SF v with
  | S754_finite s m e =>
      if 0 <=? e then v
      else match Z.shiftr (if s then Z.neg m else Z.pos m) (- e) with
           | Z0 => zero
           | Z.pos n => SF2Prim (S754_finite false n 0)
           | Z.neg n => SF2Prim (S754_finite true n 0)
           end
  | _ => v
  end.

(** [n % d]: the remainder of the truncating division, exact, with the
    sign of the dividend. *)
Definition rem (n d : float) : float :=
  match Prim2SF n, Prim2SF d with
  | S754_nan, _ | _, S754_nan => nan
  | S754_infinity _, _ => nan
  | _, S754_zero _ => nan
  | _, S754_infinity _ => n
  | S754_zero _, _ => n
  | S754_finite sn mn en, S754_finite _ md ed =>
      let e := Z.min en ed in
      match (Z.pos mn * 2 ^ (en - e)) mod (Z.pos md * 2 ^ (ed - e)) with
      | Z.pos r => SF2Prim (S754_finite sn r e)
      | _ => if sn then neg_zero else zero
      end
  end.

(** The decimal [s * 10^p] nearest to the double [m * 2^e] among those
    that read back as that double (round to nearest, ties to even), if
    there is one.  In units of [2^(e-2)] the double is [4m] and the
    reals that round to it lie between [lo] and [hi]. *)
Definition candidate (m : positive) (e p : Z) : option Z :=
  let X := 4 * Z.pos m in
  let lo := X - (if (Z.pos m =? 2 ^ 52) && (-1074 <? e) then 1 else 2) in
  let hi := X + 2 in
  let a := 2 ^ Z.max (e - 2) 0 * 10 ^ Z.max (- p) 0 in
  let b := 2 ^ Z.max (2 - e) 0 * 10 ^ Z.max p 0 in
  let inside (s : Z) :=
    if Z.even (Z.pos m)
    then (lo * a <=? s * b) && (s * b <=? hi * a)
    else (lo * a <? s * b) && (s * b <? hi * a) in
  let s0 := (X * a) / b in
  let s1 := s0 + 1 in
  match (0 <? s0) && inside s0, inside s1 with
  | true, false => Some s0
  | false, true => Some s1
  | true, true =>
      let d0 := X * a - s0 * b in
      let d1 := s1 * b - X * a in
      if d0 <? d1 then Some s0
      else if d1 <? d0 then Some s1
      else if Z.even s0 then Some s0 else Some s1
  | false, false => None
  end.

(** The shortest such decimal: the largest exponent [p] that admits
    one, searched downwards. *)
Fixpoint shortest (fuel : nat) (m : positive) (e p : Z) : Z * Z :=
  match candidate m e p with
  | Some s => (s, p)
  | None =>
      match fuel with
      | O => (Z.pos m, e)
      | S fuel' => shortest fuel' m e (p - 1)
      end
  end.

(** An exponent no decimal of the double can exceed: [m * 2^e < 2^(e+53)]
    and [log10 2 < 0.30103]. *)
Definition top_exponent (e : Z) : Z := (e + 53) * 30103 / 100000 + 2.

Definition zeros (n : Z) : string :=
  String.concat "" (replicate (Z.to_nat n) "0"%string).
Definition first (n : Z) (s : string) : string :=
  String.substring 0 (Z.to_nat n) s.
Definition after (n : Z) (s : string) : string :=
  String.substring (Z.to_nat n) (String.length s - Z.to_nat n) s.

(** [Number.prototype.toString()] in radix 10 (ECMA-262,
    Number::toString): [k] digits [s], decimal point after [n] digits. *)
Definition toString (v : float) : string :=
  match Prim2SF v with
  | S754_nan => "NaN"
  | S754_zero _ => "0"
  | S754_infinity sg => if sg then "-Infinity" else "Infinity"
  | S754_finite sg m e =>
      let '(s, p) := shortest 1500 m e (top_exponent e) in
      let ds := pretty s in
      let k := Z.of_nat (String.length ds) in
      let n := k + p in
      let body :=
        if (k <=? n) && (n <=? 21) then ds +:+ zeros (n - k)
        else if (0 <? n) && (n <=? 21) then
          first n ds +:+ "." +:+ after n ds
        else if (-6 <? n) && (n <=? 0) then "0." +:+ zeros (- n) +:+ ds
        else
          let ex :=
            (if 0 <=? n - 1 then "+" else "-") +:+ pretty (Z.abs (n - 1)) in
          if k =? 1 then ds +:+ "e" +:+ ex
          else first 1 ds +:+ "." +:+ after 1 ds +:+ "e" +:+ ex in
      if sg then "-" +:+ body else body
  end.

(** [s.padStart(n, c)] for a one-character filler [c]. *)
Definition padStart (n : nat) (c : string) (s : string) : string :=
  String.concat "" (replicate (n - String.length s)%nat c) +:+ s.

End JSNumber.

(* ===================================================================== *)
(** * Part II. SignLanguageTranslator.tsx                                  *)
(* ===================================================================== *)

(** A MediaPipe landmark: normalised image coordinates and depth. *)
Module Landmark.
Record t : Type := mk { x : float; y : float; z : float }.
End Landmark.

Module Translator.

(** [p.x] where [p = landmarks[i]]: reading a property of [undefined]
    raises a [TypeError].  ECMA-262 fixes the kind of the exception and
    leaves its message to the engine; the text is V8's (Chrome, Node),
    and no statement below depends on it. *)
Definition prop (p : option Landmark.t) (name : string)
    (field : Landmark.t → float) : completion float :=
  match p with
  | Some q => Normal (field q)
  | None =>
      Throw (TypeError
               ("Cannot read properties of undefined (reading '" +:+ name
                +:+ "')"))
  end.

(** The if/else chain at the end of [detectGesture]. *)
Definition classify (thumbIndexDist thumbMiddleDist : float) : option string :=
  if lt thumbIndexDist 0.1 && lt thumbMiddleDist 0.1 then Some "A"
  else if gt thumbIndexDist 0.2 && lt thumbMiddleDist 0.1 then Some "B"
  else if lt thumbIndexDist 0.1 && gt thumbMiddleDist 0.2 then Some "C"
  else if gt thumbIndexDist 0.2 && gt thumbMiddleDist 0.2 then Some "D"
  else None.

(** [detectGesture(landmarks)]; [None] is JavaScript's [null].  The
    argument is an array, so the [!landmarks] test never fires. *)
Definition detectGesture (landmarks : list Landmark.t)
  : completion (option string) :=
  if bool_decide (length landmarks = 0) then Normal None else
  let thumbTip := landmarks !! 4 in
  let indexTip := landmarks !! 8 in
  let middleTip := landmarks !! 12 in
  let ringTip := landmarks !! 16 in
  let pinkyTip := landmarks !! 20 in
  let wrist := landmarks !! 0 in
  tx ← prop thumbTip "x" Landmark.x;
  ix ← prop indexTip "x" Landmark.x;
  ty ← prop thumbTip "y" Landmark.y;
  iy ← prop indexTip "y" Landmark.y;
  let thumbIndexDist :=
    sqrt (Math_pow2 (tx - ix) + Math_pow2 (ty - iy))%float in
  tx' ← prop thumbTip "x" Landmark.x;
  mx ← prop middleTip "x" Landmark.x;
  ty' ← prop thumbTip "y" Landmark.y;
  my ← prop middleTip "y" Landmark.y;
  let thumbMiddleDist :=
    sqrt (Math_pow2 (tx' - mx) + Math_pow2 (ty' - my))%float in
  Normal (classify thumbIndexDist thumbMiddleDist).

(** The two distances [detectGesture] measures, as functions of the
    frame: between the thumb tip (4) and the index tip (8), and between
    the thumb tip and the middle tip (12), in the image plane. *)
Definition planar_distance (p q : Landmark.t) : float :=
  sqrt (Math_pow2 (Landmark.x p - Landmark.x q) +
        Math_pow2 (Landmark.y p - Landmark.y q))%float.

Definition thumbIndexDist (landmarks : list Landmark.t) : option float :=
  p ← landmarks !! 4; q ← landmarks !! 8; Some (planar_distance p q).

Definition thumbMiddleDist (landmarks : list Landmark.t) : option float :=
  p ← landmarks !! 4; q ← landmarks !! 12; Some (planar_distance p q).

Definition gestureToText : gmap string string :=
  list_to_map
    [ ("A", "Hello"); ("B", "Thank you"); ("C", "Please"); ("D", "Goodbye");
      ("E", "Yes"); ("F", "No"); ("G", "Help"); ("H", "Water");
      ("I", "Food"); ("J", "Bathroom") ].

Definition gestureSequences : gmap string string :=
  list_to_map
    [ ("AB", "Hello, thank you"); ("AC", "Hello, please");
      ("AD", "Hello, goodbye"); ("AE", "Hello, yes"); ("AF", "Hello, no") ].

(** [getTranslationFromGestures(gestures)]. *)
Definition getTranslationFromGestures (gestures : list string) : value :=
  let sequence := join "" (slice_last 2 gestures) in
  if truthy (get gestureSequences sequence) then get gestureSequences sequence
  else
    let lastGesture := last_elem gestures in
    or_else (get gestureToText (ToPropertyKey lastGesture))
            (VString "Unknown gesture").

(** The component's state variables that the translation handlers read
    or write ([useState] cells, in declaration order). *)
Record HistoryItem : Type :=
  { text : string; gestures : list string; timestamp : Z }.

Record state : Type := mkState
  { isRecording : bool;
    translatedText : string;
    isSpeaking : bool;
    lastGesture : option string;
    isProcessing : bool;
    detectedGestures : list string;
    currentGesture : option string;
    lastGestureTime : Z;
    translationHistory : list HistoryItem }.

Definition initial : state :=
  {| isRecording := false; translatedText := ""; isSpeaking := false;
     lastGesture := None; isProcessing := false; detectedGestures := [];
     currentGesture := None; lastGestureTime := 0;
     translationHistory := [] |}.

Definition setTranslatedText (v : string) (s : state) : state :=
  mkState (isRecording s) v (isSpeaking s) (lastGesture s) (isProcessing s)
    (detectedGestures s) (currentGesture s) (lastGestureTime s)
    (translationHistory s).
Definition setDetectedGestures (v : list string) (s : state) : state :=
  mkState (isRecording s) (translatedText s) (isSpeaking s) (lastGesture s)
    (isProcessing s) v (currentGesture s) (lastGestureTime s)
    (translationHistory s).
Definition setCurrentGesture (v : option string) (s : state) : state :=
  mkState (isRecording s) (translatedText s) (isSpeaking s) (lastGesture s)
    (isProcessing s) (detectedGestures s) v (lastGestureTime s)
    (translationHistory s).
Definition setLastGesture (v : option string) (s : state) : state :=
  mkState (isRecording s) (translatedText s) (isSpeaking s) v
    (isProcessing s) (detectedGestures s) (currentGesture s)
    (lastGestureTime s) (translationHistory s).
Definition setTranslationHistory (v : list HistoryItem) (s : state) : state :=
  mkState (isRecording s) (translatedText s) (isSpeaking s) (lastGesture s)
    (isProcessing s) (detectedGestures s) (currentGesture s)
    (lastGestureTime s) v.

(** [clearTranslation()]. *)
Definition clearTranslation (s : state) : state :=
  setLastGesture None
    (setCurrentGesture None
      (setDetectedGestures []
        (setTranslatedText "" s))).

(** The fall-through of [getTranslationFromGestures]: the translation
    of the last code alone. *)
Definition single_translation (gestures : list string) : value :=
  or_else (get gestureToText (ToPropertyKey (last_elem gestures)))
          (VString "Unknown gesture").

End Translator.

(* ===================================================================== *)
(** * Part III. The hosted database: the SQL set-up script                 *)
(* ===================================================================== *)

Module Database.

(** A row of [auth.users], as far as the script reads it. *)
Record auth_user : Type := { au_id : string; au_email : option string }.

(** A row of [user_profiles]. *)
Record user_profile : Type :=
  { id : string; email : string; role : string;
    created_at : Z; updated_at : Z }.

Record t : Type :=
  { auth_users : gmap string auth_user;
    user_profiles : gmap string user_profile }.

Inductive sql_error : Type :=
| not_null_violation | check_violation | unique_violation
| foreign_key_violation.

(** [INSERT INTO user_profiles (id, email, role) VALUES (..)] under the
    table's constraints: [email] and [role] [NOT NULL], the [CHECK] on
    [role], the primary key, and the reference to [auth.users(id)];
    both timestamps default to [NOW()]. *)
Definition insert_user_profile (now : Z) (uid : string)
    (mail : option string) (r : string) (d : t) : sql_error + t :=
  match mail with
  | None => inl not_null_violation
  | Some m =>
      if negb (bool_decide (r ∈ ["student"; "teacher"]))
      then inl check_violation
      else match user_profiles d !! uid with
           | Some _ => inl unique_violation
           | None =>
               match auth_users d !! uid with
               | None => inl foreign_key_violation
               | Some _ =>
                   inr {| auth_users := auth_users d;
                          user_profiles :=
                            <[uid := {| id := uid; email := m; role := r;
                                        created_at := now;
                                        updated_at := now |}]>
                              (user_profiles d) |}
               end
           end
  end.

(** The trigger function [handle_new_user()], run with the inserted
    [auth.users] row as [NEW]. *)
Definition handle_new_user (now : Z) (NEW : auth_user) (d : t)
  : sql_error + t :=
  insert_user_profile now (au_id NEW) (au_email NEW) "student" d.

(** [INSERT INTO auth.users] with the [AFTER INSERT .. FOR EACH ROW]
    trigger [on_auth_user_created]: the row is added, then the trigger
    function runs; an error it raises aborts the whole statement. *)
Definition insert_auth_user (now : Z) (NEW : auth_user) (d : t)
  : sql_error + t :=
  match auth_users d !! au_id NEW with
  | Some _ => inl unique_violation
  | None =>
      handle_new_user now NEW
        {| auth_users := <[au_id NEW := NEW]> (auth_users d);
           user_profiles := user_profiles d |}
  end.

(** The trigger function of the second set-up script
    ([src/unnamed/part_003]): an error of the insert is caught by
    [EXCEPTION WHEN OTHERS], which undoes the block and keeps the new
    user. *)
Definition handle_new_user_part_003 (now : Z) (NEW : auth_user) (d : t)
  : sql_error + t :=
  match insert_user_profile now (au_id NEW) (au_email NEW) "student" d with
  | inl _ => inr d
  | inr d' => inr d'
  end.

Definition insert_auth_user_part_003 (now : Z) (NEW : auth_user) (d : t)
  : sql_error + t :=
  match auth_users d !! au_id NEW with
  | Some _ => inl unique_violation
  | None =>
      handle_new_user_part_003 now NEW
        {| auth_users := <[au_id NEW := NEW]> (auth_users d);
           user_profiles := user_profiles d |}
  end.

(** What [REFERENCES auth.users(id) ON DELETE CASCADE] maintains. *)
Definition referential_integrity (d : t) : Prop :=
  ∀ uid, is_Some (user_profiles d !! uid) → is_Some (auth_users d !! uid).

End Database.

(* ===================================================================== *)
(** * Part IV. AuthContext.tsx                                             *)
(* ===================================================================== *)

(** The answers of the hosted backend are inputs of the handlers.  The
    auth service itself is not part of the repository; the model fixes
    only that creating an account is an insert into [auth.users], on
    which the trigger of the set-up script fires. *)
Module Supabase.

Record User : Type := { user_id : string; user_email : string }.
Record Session : Type := { session_user : User; access_token : string }.

(** [AuthError] / [PostgrestError]: [code] may be absent. *)
Record Error : Type := { code : option string; message : string }.

(** [{ data, error }] of [from('user_profiles').select('role')
    .eq('id', userId).single()]; [data] is [null] or [{ role }]. *)
Record RoleResponse : Type :=
  { data : option (option string); error : option Error }.

(** [{ data: { user }, error }] of [auth.getUser()]. *)
Record UserResponse : Type :=
  { user_data : option User; user_error : option Error }.

(** What the auth service does with a sign-up request: which row it
    stores in [auth.users], if any, is its own decision. *)
Inductive signup_decision : Type :=
| Unreachable (e : JS.error)       (* the call rejects; nothing is stored *)
| Refuse (err : Error)             (* [{ error }]; nothing is stored *)
| Create (NEW : Database.auth_user).   (* a new account, stored as [NEW] *)

Record SignUpResponse : Type :=
  { signup_user : option User; signup_error : option Error }.

(** [auth.signUp({ email, password, options })].  The request carries
    the e-mail address, the password and a redirect address; it has no
    role. *)
Definition signUp (dec : signup_decision) (now : Z)
    (mail password : string) (d : Database.t)
  : Database.t * completion SignUpResponse :=
  match dec with
  | Unreachable e => (d, Throw e)
  | Refuse err =>
      (d, Normal {| signup_user := None; signup_error := Some err |})
  | Create NEW =>
      match Database.insert_auth_user now NEW d with
      | inl _ =>
          (d, Normal {| signup_user := None;
                        signup_error :=
                          Some {| code := Some "unexpected_failure";
                                  message := "Database error saving new user" |} |})
      | inr d' =>
          (d', Normal {| signup_user :=
                           Some {| user_id := Database.au_id NEW;
                                   user_email := mail |};
                         signup_error := None |})
      end
  end.

End Supabase.

Module AuthContext.
Import Supabase.

Record Toast : Type :=
  { variant : option string; title : string; description : string }.

(** Closures handed to [setTimeout]. *)
Inductive callback : Type :=
| ResetLoading.                      (* [() => setIsLoading(false)] *)

(** The provider's [useState] cells, and what its handlers leave in the
    page: toasts shown, timers armed, and an assigned location. *)
Record state : Type := mkState
  { session : option Session;
    user : option User;
    userRole : option string;
    isLoading : bool;
    toasts : list Toast;
    timeouts : list (callback * Z);
    location_href : option string }.

Definition setSession (v : option Session) (s : state) : state :=
  mkState v (user s) (userRole s) (isLoading s) (toasts s) (timeouts s)
    (location_href s).
Definition setUser (v : option User) (s : state) : state :=
  mkState (session s) v (userRole s) (isLoading s) (toasts s) (timeouts s)
    (location_href s).
Definition setUserRole (v : option string) (s : state) : state :=
  mkState (session s) (user s) v (isLoading s) (toasts s) (timeouts s)
    (location_href s).
Definition setIsLoading (v : bool) (s : state) : state :=
  mkState (session s) (user s) (userRole s) v (toasts s) (timeouts s)
    (location_href s).
Definition toast (t : Toast) (s : state) : state :=
  mkState (session s) (user s) (userRole s) (isLoading s) (t :: toasts s)
    (timeouts s) (location_href s).
Definition setTimeout (cb : callback) (ms : Z) (s : state) : state :=
  mkState (session s) (user s) (userRole s) (isLoading s) (toasts s)
    ((cb, ms) :: timeouts s) (location_href s).
Definition set_location_href (v : string) (s : state) : state :=
  mkState (session s) (user s) (userRole s) (isLoading s) (toasts s)
    (timeouts s) (Some v).

(** [data?.role as UserRole || 'student' as UserRole]. *)
Definition role_or_student (data : option (option string)) : string :=
  match data with
  | Some (Some r) => if bool_decide (r = "") then "student" else r
  | _ => "student"
  end.

(** [fetchUserRole(userId)], given the outcome of the awaited query;
    [None] is [null]. *)
Definition fetchUserRole (query : completion RoleResponse)
  : completion (option string) :=
  match query with
  | Normal r =>
      match error r with
      | Some err =>
          if bool_decide (code err = Some "42P01") then
            Normal (Some "student")
          else if bool_decide (code err = Some "PGRST116") then
            Normal (Some "student")
          else Normal (Some "student")
      | None => Normal (Some (role_or_student (data r)))
      end
  | Throw _ => Normal (Some "student")
  end.

(** [error.message || fallback]. *)
Definition message_or (msg fallback : string) : string :=
  if bool_decide (msg = "") then fallback else msg.

Definition error_message (e : JS.error) : string :=
  match e with TypeError m => m | Raised m => m end.

(** The [finally] block shared by the handlers. *)
Definition finally_reset (s : state) : state := setTimeout ResetLoading 1000 s.

(** The [catch] block: a destructive toast, then the error is re-thrown. *)
Definition catch_toast (fallback : string) (e : JS.error) (s : state)
  : state * completion () :=
  (toast {| variant := Some "destructive"; title := "Error";
            description := message_or (error_message e) fallback |} s,
   Throw e).

(** [signUpWithEmail(email, password, role)] over the backend state. *)
Definition signUpWithEmail (dec : signup_decision) (now : Z)
    (mail password role : string) (w : state * Database.t)
  : (state * Database.t) * completion () :=
  let '(s, d) := w in
  let s1 := setIsLoading true s in
  let '(d', resp) := signUp dec now mail password d in
  let '(s2, c) :=
    match resp with
    | Normal r =>
        match signup_error r with
        | Some err => catch_toast "Failed to sign up" (Raised (message err)) s1
        | None =>
            match signup_user r with
            | Some _ =>
                (toast {| variant := None; title := "Success";
                          description := "Your account has been created successfully. Please check your email to verify your account." |}
                   (setUserRole (Some role) s1), Normal ())
            | None => (s1, Normal ())
            end
        end
    | Throw e => catch_toast "Failed to sign up" e s1
    end in
  ((finally_reset s2, d'), c).

(** [signOut()], given the outcome of [await supabase.auth.signOut()]:
    it rejects, or resolves to [{ error }]. *)
Definition signOut (resp : completion (option Error)) (s : state)
  : state * completion () :=
  let s1 :=
    setUserRole None (setUser None (setSession None (setIsLoading true s))) in
  let '(s2, c) :=
    match resp with
    | Normal None =>
        (toast {| variant := None; title := "Success";
                  description := "You have been signed out successfully." |}
           (set_location_href "/" s1), Normal ())
    | Normal (Some err) =>
        catch_toast "Failed to sign out" (Raised (message err)) s1
    | Throw e => catch_toast "Failed to sign out" e s1
    end in
  (finally_reset s2, c).

End AuthContext.

(** The second copy of the provider in the repository
    ([src/unnamed/part_001]). *)
Module AuthContext_part_001.
Import Supabase.

(** The closure armed with [setTimeout(.., 2000)]: insert a profile row
    [{ id: userId, email: userData.user.email, role: 'student' }]. *)
Inductive callback : Type :=
| CreateProfile (userData : option User).

(** [fetchUserRole(userId)], given the outcomes of the awaited query and
    of [auth.getUser()]; returns the timers it armed as well. *)
Definition fetchUserRole (query : completion RoleResponse)
    (getUser : completion UserResponse)
  : completion (option string) * list (callback * Z) :=
  match query with
  | Normal r =>
      match error r with
      | Some err =>
          if bool_decide (code err = Some "42P01") then
            (Normal (Some "student"), [])
          else if bool_decide (code err = Some "PGRST116") then
            match getUser with
            | Normal u =>
                match user_error u with
                | Some _ => (Normal (Some "student"), [])
                | None =>
                    (Normal (Some "student"),
                     [(CreateProfile (user_data u), 2000%Z)])
                end
            | Throw _ => (Normal (Some "student"), [])
            end
          else (Normal None, [])
      | None => (Normal (Some (AuthContext.role_or_student (data r))), [])
      end
  | Throw _ => (Normal (Some "student"), [])
  end.

End AuthContext_part_001.

(* ===================================================================== *)
(** * Part V. VideoCaptioning.tsx                                          *)
(* ===================================================================== *)

Module VideoCaptioning.

Record CaptionEntry : Type :=
  { text : string; startTime : float; endTime : float;
    isEdited : option bool }.

(** Closures handed to [setTimeout]. *)
Inductive callback : Type :=
| ClearAutoSaveStatus.               (* [() => setAutoSaveStatus("")] *)

(** The cells of the component that auto-save touches, with the page's
    local storage and timer queue (clock and delays in milliseconds;
    timer ids are positive integers). *)
Record state : Type := mkState
  { generatedCaptions : list CaptionEntry;
    autoSaveStatus : string;
    autoSaveTimeoutRef : option positive;
    localStorage : gmap string string;
    clock : Z;
    timers : gmap positive (callback * Z);
    next_timer : positive }.

Definition initial : state :=
  {| generatedCaptions := []; autoSaveStatus := "";
     autoSaveTimeoutRef := None; localStorage := ∅; clock := 0;
     timers := ∅; next_timer := 1 |}.

Definition setGeneratedCaptions (v : list CaptionEntry) (s : state) : state :=
  mkState v (autoSaveStatus s) (autoSaveTimeoutRef s) (localStorage s)
    (clock s) (timers s) (next_timer s).
Definition setAutoSaveStatus (v : string) (s : state) : state :=
  mkState (generatedCaptions s) v (autoSaveTimeoutRef s) (localStorage s)
    (clock s) (timers s) (next_timer s).
Definition set_autoSaveTimeoutRef (v : option positive) (s : state) : state :=
  mkState (generatedCaptions s) (autoSaveStatus s) v (localStorage s)
    (clock s) (timers s) (next_timer s).

(** [localStorage.setItem(key, v)]. *)
Definition localStorage_setItem (key v : string) (s : state) : state :=
  mkState (generatedCaptions s) (autoSaveStatus s) (autoSaveTimeoutRef s)
    (<[key := v]> (localStorage s)) (clock s) (timers s) (next_timer s).

(** [clearTimeout(id)]. *)
Definition clearTimeout (i : positive) (s : state) : state :=
  mkState (generatedCaptions s) (autoSaveStatus s) (autoSaveTimeoutRef s)
    (localStorage s) (clock s) (delete i (timers s)) (next_timer s).

(** [setTimeout(cb, ms)]: arms a timer and returns its id. *)
Definition setTimeout (cb : callback) (ms : Z) (s : state)
  : positive * state :=
  (next_timer s,
   mkState (generatedCaptions s) (autoSaveStatus s) (autoSaveTimeoutRef s)
     (localStorage s) (clock s)
     (<[next_timer s := (cb, (clock s + ms)%Z)]> (timers s))
     (next_timer s + 1)%positive).

Definition newline : string := String (Ascii.ascii_of_nat 10) EmptyString.

(** [formatTime(seconds)]. *)
Definition formatTime (seconds : float) : string :=
  let minutes := JSNumber.Math_floor (seconds / 60)%float in
  let remainingSeconds := JSNumber.Math_floor (JSNumber.rem seconds 60) in
  JSNumber.toString minutes +:+ ":" +:+
  JSNumber.padStart 2 "0" (JSNumber.toString remainingSeconds).

(** The text [autoSaveCaptions] builds from the captions. *)
Definition notesText (captions : list CaptionEntry) : string :=
  join (newline +:+ newline)
    (map (λ caption,
            "[" +:+ formatTime (startTime caption) +:+ " - " +:+
            formatTime (endTime caption) +:+ "] " +:+ text caption)
         captions).

(** [autoSaveCaptions()]. *)
Definition autoSaveCaptions (s : state) : state :=
  if bool_decide (length (generatedCaptions s) = 0) then s else
  let s1 := localStorage_setItem "videoCaptions"
              (notesText (generatedCaptions s)) s in
  let s2 := setAutoSaveStatus "Auto-saved" s1 in
  let s3 := match autoSaveTimeoutRef s2 with
            | Some i => clearTimeout i s2
            | None => s2
            end in
  let '(i, s4) := setTimeout ClearAutoSaveStatus 2000 s3 in
  set_autoSaveTimeoutRef (Some i) s4.

(** A change of the captions, followed by the effect that depends on
    them: [useEffect(() => { autoSaveCaptions(); }, [generatedCaptions])]. *)
Definition captions_changed (captions : list CaptionEntry) (s : state)
  : state :=
  autoSaveCaptions (setGeneratedCaptions captions s).

(** The event loop: time passes, and a timer that is due runs once. *)
Definition elapse (ms : Z) (s : state) : state :=
  mkState (generatedCaptions s) (autoSaveStatus s) (autoSaveTimeoutRef s)
    (localStorage s) (clock s + ms)%Z (timers s) (next_timer s).

Definition run (cb : callback) (s : state) : state :=
  match cb with
  | ClearAutoSaveStatus => setAutoSaveStatus "" s
  end.

Definition fire (i : positive) (s : state) : state :=
  match timers s !! i with
  | Some (cb, due) =>
      if bool_decide (due ≤ clock s)%Z then run cb (clearTimeout i s) else s
  | None => s
  end.

End VideoCaptioning.

(* ===================================================================== *)
(** * Part V-a. SignLanguageTranslator.tsx: the live handler and the game *)
(* ===================================================================== *)

(** The callback registered with [hands.onResults] in the effect that
    initialises the model.  The effect has no dependencies, so the
    callback keeps the variables of the render that ran it: [closure] is
    that render's state, [s] the state the setters act on. *)
Module LiveTranslation.

Record HandResults : Type :=
  { multiHandLandmarks : list (list Landmark.t);
    multiHandedness : list string }.

(** The [results] object of MediaPipe; either field may be missing. *)
Record Results : Type :=
  { r_multiHandLandmarks : option (list (list Landmark.t));
    r_multiHandedness : option (list string) }.

(** The cells the callback writes; [translatedText] holds whatever
    [getTranslationFromGestures] returned. *)
Record cells : Type := mkCells
  { handResults : option HandResults;
    currentGesture : option string;
    detectedGestures : list string;
    translatedText : value }.

Definition setHandResults (v : option HandResults) (s : cells) : cells :=
  mkCells v (currentGesture s) (detectedGestures s) (translatedText s).
Definition setCurrentGesture (v : option string) (s : cells) : cells :=
  mkCells (handResults s) v (detectedGestures s) (translatedText s).
Definition setDetectedGestures (f : list string → list string) (s : cells)
  : cells :=
  mkCells (handResults s) (currentGesture s) (f (detectedGestures s))
    (translatedText s).
Definition setTranslatedText (v : value) (s : cells) : cells :=
  mkCells (handResults s) (currentGesture s) (detectedGestures s) v.

(** [gesture && gesture !== currentGesture]. *)
Definition is_new_gesture (gesture current : option string) : bool :=
  match gesture with
  | Some g =>
      negb (bool_decide (g = "")) && negb (bool_decide (current = Some g))
  | None => false
  end.

Definition onResults (closure : cells) (results : Results) (s : cells)
  : cells * completion () :=
  match r_multiHandLandmarks results with
  | Some (landmarks :: others) =>
      let s1 :=
        setHandResults
          (Some {| multiHandLandmarks := landmarks :: others;
                   multiHandedness :=
                     match r_multiHandedness results with
                     | Some h => h
                     | None => []
                     end |}) s in
      match Translator.detectGesture landmarks with
      | Normal (Some g) =>
          if is_new_gesture (Some g) (currentGesture closure) then
            let s2 := setCurrentGesture (Some g) s1 in
            let s3 := setDetectedGestures (λ prev, (prev ++ [g])%list) s2 in
            let translation :=
              Translator.getTranslationFromGestures
                (detectedGestures closure ++ [g])%list in
            (setTranslatedText translation s3, Normal ())
          else (s1, Normal ())
      | Normal None => (s1, Normal ())
      | Throw e => (s1, Throw e)
      end
  | _ => (setHandResults None s, Normal ())
  end.

(** The state of the first render, in which the effect runs. *)
Definition mounted : cells :=
  {| handResults := None; currentGesture := None; detectedGestures := [];
     translatedText := VString "" |}.

End LiveTranslation.

(** Achievements and challenges.  [icon], a React element, is left out
    of [Achievement]. *)
Module Practice.

Module Achievement.
Record t : Type := mk
  { id : string; title : string; description : string;
    progress : float; total : float; reward : float; unlocked : bool }.
End Achievement.

Module Challenge.
Record t : Type := mk
  { id : string; title : string; description : string;
    gestures : list string; timeLimit : float; reward : float;
    completed : bool }.
End Challenge.

Record cells : Type := mkCells
  { score : float;
    streak : float;
    achievements : list Achievement.t;
    challenges : list Challenge.t;
    activeChallenge : option Challenge.t;
    challengeTimer : option float;
    challengeProgress : list string }.

Definition setScore (f : float → float) (s : cells) : cells :=
  mkCells (f (score s)) (streak s) (achievements s) (challenges s)
    (activeChallenge s) (challengeTimer s) (challengeProgress s).
Definition setStreak (f : float → float) (s : cells) : cells :=
  mkCells (score s) (f (streak s)) (achievements s) (challenges s)
    (activeChallenge s) (challengeTimer s) (challengeProgress s).
Definition setAchievements (f : list Achievement.t → list Achievement.t)
    (s : cells) : cells :=
  mkCells (score s) (streak s) (f (achievements s)) (challenges s)
    (activeChallenge s) (challengeTimer s) (challengeProgress s).
Definition setChallenges (f : list Challenge.t → list Challenge.t)
    (s : cells) : cells :=
  mkCells (score s) (streak s) (achievements s) (f (challenges s))
    (activeChallenge s) (challengeTimer s) (challengeProgress s).
Definition setActiveChallenge (v : option Challenge.t) (s : cells) : cells :=
  mkCells (score s) (streak s) (achievements s) (challenges s) v
    (challengeTimer s) (challengeProgress s).
Definition setChallengeTimer (v : option float) (s : cells) : cells :=
  mkCells (score s) (streak s) (achievements s) (challenges s)
    (activeChallenge s) v (challengeProgress s).
Definition setChallengeProgress (v : list string) (s : cells) : cells :=
  mkCells (score s) (streak s) (achievements s) (challenges s)
    (activeChallenge s) (challengeTimer s) v.

(** [Math.min(a, b)]: NaN if either is NaN; [-0] is below [+0]. *)
Definition Math_min (a b : float) : float :=
  if is_nan a || is_nan b then nan
  else if (a <? b)%float then a
  else if (b <? a)%float then b
  else if get_sign a then a else b.

(** [a >= b]. *)
Definition ge (a b : float) : bool := (b <=? a)%float.

(** The callback of [prev.map] in [updateAchievements], without its call
    of [setScore]. *)
Definition advance (streak : float) (achievement : Achievement.t)
  : Achievement.t :=
  if Achievement.unlocked achievement then achievement else
  let newProgress :=
    if bool_decide (Achievement.id achievement = "first_gesture") then
      1%float
    else if bool_decide (Achievement.id achievement = "gesture_master") then
      Math_min (Achievement.progress achievement + 1)%float
               (Achievement.total achievement)
    else if bool_decide (Achievement.id achievement = "perfect_streak") then
      Math_min streak (Achievement.total achievement)
    else Achievement.progress achievement in
  let unlocked := ge newProgress (Achievement.total achievement) in
  Achievement.mk (Achievement.id achievement) (Achievement.title achievement)
    (Achievement.description achievement) newProgress
    (Achievement.total achievement) (Achievement.reward achievement) unlocked.

(** The reward the callback hands to [setScore] for one achievement:
    [if (unlocked && !achievement.unlocked)]. *)
Definition award (streak : float) (achievement : Achievement.t)
    (score : float) : float :=
  if Achievement.unlocked (advance streak achievement)
     && negb (Achievement.unlocked achievement)
  then (score + Achievement.reward achievement)%float
  else score.

(** [updateAchievements(gesture)]; [streak] is read from the render.
    The updater of the achievements runs once. *)
Definition updateAchievements (gesture : string) (s : cells) : cells :=
  let s1 := setAchievements (map (advance (streak s))) s in
  setScore (λ prev, foldl (λ sc a, award (streak s) a sc) prev
                      (achievements s)) s1.

(** [updateStreak(correct)]. *)
Definition updateStreak (correct : bool) (s : cells) : cells :=
  if correct then setStreak (λ prev, prev + 1)%float s
  else setStreak (λ _, 0%float) s.

(** [startChallenge(challenge)]. *)
Definition startChallenge (challenge : Challenge.t) (s : cells) : cells :=
  setChallengeTimer (Some (Challenge.timeLimit challenge))
    (setChallengeProgress [] (setActiveChallenge (Some challenge) s)).

(** [gestures.every((g, i) => newProgress[i] === g)]. *)
Definition every_matches (gestures newProgress : list string) : bool :=
  forallb (λ ig, bool_decide (newProgress !! ig.1 = Some ig.2))
          (imap pair gestures).

(** [checkChallengeProgress(gesture)]. *)
Definition checkChallengeProgress (gesture : string) (s : cells) : cells :=
  match activeChallenge s with
  | None => s
  | Some active =>
      let newProgress := (challengeProgress s ++ [gesture])%list in
      let s1 := setChallengeProgress newProgress s in
      if every_matches (Challenge.gestures active) newProgress then
        let s2 := setScore (λ prev, prev + Challenge.reward active)%float s1 in
        let s3 :=
          setChallenges
            (map (λ c, if bool_decide (Challenge.id c = Challenge.id active)
                       then Challenge.mk (Challenge.id c) (Challenge.title c)
                              (Challenge.description c) (Challenge.gestures c)
                              (Challenge.timeLimit c) (Challenge.reward c) true
                       else c)) s2 in
        setChallengeTimer None (setActiveChallenge None s3)
      else s1
  end.

(** Gestures recognised one after the other, each in the render that
    follows the previous one. *)
Definition play (gestures : list string) (s : cells) : cells :=
  foldl (λ st g, checkChallengeProgress g st) s gestures.

End Practice.

(* ===================================================================== *)
(** * Part V-b. AuthContext.tsx: the other handlers                        *)
(* ===================================================================== *)

Module AuthHandlers.
Import Supabase AuthContext.

(** [{ data: { session }, error }] of [auth.signInWithPassword]. *)
Record SignInResponse : Type :=
  { signin_session : option Session; signin_error : option Error }.

(** [setSession(null); setUser(null); setUserRole(null)]. *)
Definition clear_session (s : state) : state :=
  setUserRole None (setUser None (setSession None s)).

(** The block the handlers share: [setSession(session);
    setUser(session.user); const role = await fetchUserRole(..);
    setUserRole(role)], given the outcome of the role query. *)
Definition adopt_session (sess : Session) (query : completion RoleResponse)
    (s : state) : state * completion () :=
  let s1 := setUser (Some (session_user sess)) (setSession (Some sess) s) in
  match fetchUserRole query with
  | Normal role => (setUserRole role s1, Normal ())
  | Throw e => (s1, Throw e)
  end.

Definition signed_in_toast : Toast :=
  {| variant := None; title := "Success";
     description := "You have been signed in successfully." |}.

(** [signInWithEmail(email, password)], given the outcomes of
    [auth.signInWithPassword] and of the role query. *)
Definition signInWithEmail (resp : completion SignInResponse)
    (query : completion RoleResponse) (s : state) : state * completion () :=
  let s1 := setIsLoading true s in
  let '(s2, c) :=
    match resp with
    | Normal r =>
        match signin_error r with
        | Some err => catch_toast "Failed to sign in" (Raised (message err)) s1
        | None =>
            match signin_session r with
            | Some sess =>
                match adopt_session sess query s1 with
                | (s', Normal _) => (toast signed_in_toast s', Normal ())
                | (s', Throw e) => catch_toast "Failed to sign in" e s'
                end
            | None => (toast signed_in_toast s1, Normal ())
            end
        end
    | Throw e => catch_toast "Failed to sign in" e s1
    end in
  (finally_reset s2, c).

(** [getInitialSession()], given the outcomes of [auth.getSession] and of
    the role query; its [catch] block swallows the error. *)
Definition getInitialSession (got : completion (option Session))
    (query : completion RoleResponse) (s : state) : state :=
  let s1 := setIsLoading true s in
  let s2 :=
    match got with
    | Normal (Some initialSession) =>
        match adopt_session initialSession query s1 with
        | (s', Normal _) => s'
        | (s', Throw _) => clear_session s'
        end
    | Normal None => clear_session s1
    | Throw _ => clear_session s1
    end in
  finally_reset s2.

(** [!userRole]. *)
Definition no_role (r : option string) : bool :=
  match r with
  | Some v => bool_decide (v = "")
  | None => true
  end.

(** The listener passed to [auth.onAuthStateChange].  It is registered
    by an effect without dependencies, so [userRole] is the value of the
    render that registered it. *)
Definition onAuthStateChange (userRole_in_closure : option string)
    (event : string) (currentSession : option Session)
    (query : completion RoleResponse) (s : state) : state :=
  let '(s1, c) :=
    match bool_decide (event = "SIGNED_IN"), currentSession with
    | true, Some sess => adopt_session sess query s
    | _, _ =>
        if bool_decide (event = "SIGNED_OUT") then (clear_session s, Normal ())
        else
          match bool_decide (event = "TOKEN_REFRESHED"), currentSession with
          | true, Some sess =>
              let s' :=
                setUser (Some (session_user sess))
                  (setSession (Some sess) s) in
              if no_role userRole_in_closure then
                match fetchUserRole query with
                | Normal role => (setUserRole role s', Normal ())
                | Throw e => (s', Throw e)
                end
              else (s', Normal ())
          | _, _ => (s, Normal ())
          end
    end in
  finally_reset
    match c with
    | Normal _ => s1
    | Throw _ => clear_session s1
    end.

End AuthHandlers.

(** [signOut] in the second copy of the provider
    ([src/unnamed/part_001]). *)
Module AuthHandlers_part_001.
Import Supabase AuthContext.

Definition signOut (resp : completion (option Error)) (s : state)
  : state * completion () :=
  let s1 := setIsLoading true s in
  let '(s2, c) :=
    match resp with
    | Normal None =>
        (toast {| variant := None; title := "Success";
                  description := "You have been signed out successfully." |}
           (setUserRole None (setUser None (setSession None s1))), Normal ())
    | Normal (Some err) =>
        catch_toast "Failed to sign out" (Raised (message err)) s1
    | Throw e => catch_toast "Failed to sign out" e s1
    end in
  (finally_reset s2, c).

End AuthHandlers_part_001.

(* ===================================================================== *)
(** * Part V-c. The SQL set-up script: policies and the update trigger     *)
(* ===================================================================== *)

(** Statements the pages send through the REST interface run under row
    level security with [auth.uid()] the id of the signed-in user.  All
    three policies of the script have the condition [auth.uid() = id]. *)
Module Policies.
Import Database.

(** [auth.uid() = id]. *)
Definition own_row (auth_uid : option string) (row : user_profile) : Prop :=
  auth_uid = Some (id row).

#[global] Instance own_row_dec auth_uid row : Decision (own_row auth_uid row).
Proof. unfold own_row. apply _. Defined.

(** The rows a [SELECT] can see: "Users can read their own profile". *)
Definition readable (auth_uid : option string) (d : t) : list user_profile :=
  filter (own_row auth_uid) (map snd (map_to_list (user_profiles d))).

Definition no_single_row : Supabase.Error :=
  {| Supabase.code := Some "PGRST116";
     Supabase.message :=
       "JSON object requested, multiple (or no) rows returned" |}.

(** [from('user_profiles').select('role').eq('id', userId).single()]:
    the row if exactly one is found, the error PGRST116 otherwise. *)
Definition select_role_single (auth_uid : option string) (userId : string)
    (d : t) : Supabase.RoleResponse :=
  match filter (λ row, id row = userId) (readable auth_uid d) with
  | [row] =>
      {| Supabase.data := Some (Some (role row)); Supabase.error := None |}
  | _ => {| Supabase.data := None; Supabase.error := Some no_single_row |}
  end.

(** A row of the teacher's list in [Students.tsx]. *)
Record Student : Type :=
  { s_id : string; s_email : string; s_created_at : Z;
    last_sign_in : option string }.

(** [order('created_at', { ascending: false })]. *)
Definition newer_first (a b : user_profile) : Prop :=
  (created_at b ≤ created_at a)%Z.

#[global] Instance newer_first_dec : RelDecision newer_first.
Proof. intros a b. unfold newer_first. apply _. Defined.

(** The list [fetchStudents] of [Students.tsx] sets when its query
    succeeds: [from('user_profiles').select('id, email, created_at')
    .eq('role', 'student').order('created_at', { ascending: false })],
    followed by [data.map(student => ({ ...student, last_sign_in: null }))]. *)
Definition fetchStudents (auth_uid : option string) (d : t) : list Student :=
  map (λ row, {| s_id := id row; s_email := email row;
                 s_created_at := created_at row; last_sign_in := None |})
    (merge_sort newer_first
       (filter (λ row, role row = "student") (readable auth_uid d))).

(** The trigger function [update_updated_at_column()], run before every
    update of a row. *)
Definition update_updated_at_column (now : Z) (NEW : user_profile)
  : user_profile :=
  {| id := id NEW; email := email NEW; role := role NEW;
     created_at := created_at NEW; updated_at := now |}.

(** [from('user_profiles').update({ role: r }).eq('id', userId)]: the
    policy "Users can update their own profile" hides every other row,
    so the statement then updates nothing and reports no error; the
    [CHECK] on [role] applies to the new row. *)
Definition update_role (auth_uid : option string) (userId r : string)
    (now : Z) (d : t) : sql_error + t :=
  match user_profiles d !! userId with
  | Some row =>
      if bool_decide (own_row auth_uid row) then
        if negb (bool_decide (r ∈ ["student"; "teacher"]))
        then inl check_violation
        else
          inr {| auth_users := auth_users d;
                 user_profiles :=
                   <[userId :=
                       update_updated_at_column now
                         {| id := id row; email := email row; role := r;
                            created_at := created_at row;
                            updated_at := updated_at row |}]>
                     (user_profiles d) |}
      else inr d
  | None => inr d
  end.

(** What the table's constraints maintain: a row is stored under its
    primary key, its role passes the [CHECK], and it refers to a user. *)
Definition consistent (d : t) : Prop :=
  ∀ uid row, user_profiles d !! uid = Some row →
    id row = uid ∧ role row ∈ ["student"; "teacher"] ∧
    is_Some (auth_users d !! uid).

End Policies.

(* ===================================================================== *)
(** * Part V-d. VideoCaptioning.tsx: recognition results and edits         *)
(* ===================================================================== *)

Module CaptionEvents.
Import VideoCaptioning.

(** One entry of [event.results]: [results[i][0].transcript] and
    [results[i].isFinal]. *)
Record Result : Type := { transcript : string; isFinal : bool }.

(** The auto-save cells with the other cells and refs the handlers use. *)
Record page : Type := mkPage
  { base : state;
    videoSource : option string;
    currentCaption : string;
    finalTranscriptRef : string;
    error : option string;
    currentTime : float;
    activeCaptionIndex : Z }.

Definition with_base (f : state → state) (p : page) : page :=
  mkPage (f (base p)) (videoSource p) (currentCaption p)
    (finalTranscriptRef p) (error p) (currentTime p) (activeCaptionIndex p).

(** A string length as a number. *)
Definition Number_of_nat (n : nat) : float :=
  match Z.of_nat n with
  | Z.pos k => SF2Prim (S754_finite false k 0)
  | _ => 0%float
  end.

Definition with_endTime (t : float) (c : CaptionEntry) : CaptionEntry :=
  {| text := text c; startTime := startTime c; endTime := t;
     isEdited := isEdited c |}.

(** [updated[updated.length - 1].endTime = t], when there is a last
    entry. *)
Fixpoint set_last_endTime (t : float) (updated : list CaptionEntry)
  : list CaptionEntry :=
  match updated with
  | [] => []
  | [c] => [with_endTime t c]
  | c :: rest => c :: set_last_endTime t rest
  end.

(** The updater handed to [setGeneratedCaptions] for a final result. *)
Definition push_caption (captionEntry : CaptionEntry)
    (prev : list CaptionEntry) : list CaptionEntry :=
  (set_last_endTime (startTime captionEntry) prev ++ [captionEntry])%list.

Definition caption_of (now : float) (transcript : string) : CaptionEntry :=
  {| text := transcript;
     startTime := (now - Number_of_nat (String_length transcript) * 0.1)%float;
     endTime := now; isEdited := None |}.

(** The loop body of [onresult] over captions, final and interim
    transcript. *)
Definition onresult_step (now : float)
    (acc : list CaptionEntry * string * string) (r : Result)
  : list CaptionEntry * string * string :=
  let '(captions, finalTranscript, interimTranscript) := acc in
  if isFinal r then
    (push_caption (caption_of now (transcript r)) captions,
     finalTranscript +:+ transcript r +:+ " ", interimTranscript)
  else (captions, finalTranscript, interimTranscript +:+ transcript r).

(** [recognition.onresult], given [videoRef.current.currentTime] (if the
    video element exists) and the results from [event.resultIndex] on. *)
Definition onresult (video : option float) (results : list Result)
    (p : page) : page :=
  match video with
  | None => p
  | Some now =>
      let '(captions, finalTranscript, interimTranscript) :=
        foldl (onresult_step now)
          (generatedCaptions (base p), finalTranscriptRef p, "") results in
      mkPage (setGeneratedCaptions captions (base p)) (videoSource p)
        (finalTranscript +:+ interimTranscript) finalTranscript (error p)
        (currentTime p) (activeCaptionIndex p)
  end.

(** The event followed by the auto-save effect, which runs when a final
    result has replaced the caption list. *)
Definition onresult_saved (video : option float) (results : list Result)
    (p : page) : page :=
  match video with
  | Some _ =>
      if existsb isFinal results
      then with_base autoSaveCaptions (onresult video results p)
      else onresult video results p
  | None => p
  end.

(** [handleCaptionEdit(index, newText)] on the caption list, for an
    index inside the list.  With any other index JavaScript extends the
    array by an entry without times, after holes; such arrays are not
    lists of captions, and the model stops there ([None]). *)
Definition handleCaptionEdit (index : nat) (newText : string)
    (prev : list CaptionEntry) : option (list CaptionEntry) :=
  match prev !! index with
  | Some c =>
      Some (<[index := {| text := newText; startTime := startTime c;
                          endTime := endTime c; isEdited := Some true |}]>
              prev)
  | None => None
  end.

(** The edit followed by the auto-save effect. *)
Definition handleCaptionEdit_saved (index : nat) (newText : string)
    (s : state) : option state :=
  updated ← handleCaptionEdit index newText (generatedCaptions s);
  Some (captions_changed updated s).

(** [handleFileChange(event)], given the object URL of the chosen file
    if one was chosen, followed by the auto-save effect.  The two time
    refs it resets are read nowhere and are not part of [page]. *)
Definition handleFileChange (file : option string) (p : page) : page :=
  match file with
  | Some url =>
      mkPage (captions_changed [] (base p)) (Some url) "" "" None
        (currentTime p) (activeCaptionIndex p)
  | None => p
  end.

(** [captions.findIndex(pred)]. *)
Fixpoint findIndex_from {A} (pred : A → bool) (i : Z) (l : list A) : Z :=
  match l with
  | [] => -1
  | a :: rest => if pred a then i else findIndex_from pred (i + 1) rest
  end.

(** [t >= caption.startTime && t <= caption.endTime]. *)
Definition shown_at (t : float) (caption : CaptionEntry) : bool :=
  (startTime caption <=? t)%float && (t <=? endTime caption)%float.

(** [handleTimeUpdate()], given [video.currentTime]. *)
Definition handleTimeUpdate (t : float) (p : page) : page :=
  mkPage (base p) (videoSource p) (currentCaption p) (finalTranscriptRef p)
    (error p) t
    (findIndex_from (shown_at t) 0 (generatedCaptions (base p))).

End CaptionEvents.

(* ===================================================================== *)
(** * Part VI. Properties: vocabulary                                      *)
(* ===================================================================== *)

Module Spec.
Import Translator.

(** A distance lies in the gap between the two thresholds. *)
Definition in_gap (d : float) : Prop :=
  (0.1 <=? d)%float = true ∧ (d <=? 0.2)%float = true.

(** Landmark [i] influences the classification: replacing it in some
    frame changes the outcome of [detectGesture]. *)
Definition influences (i : nat) : Prop :=
  ∃ (l : list Landmark.t) (p : Landmark.t),
    detectGesture (<[i := p]> l) ≠ detectGesture l.

(** A classification that depends on the distance between landmarks
    [i] and [j] is influenced by both of them. *)
Definition may_threshold (ij : nat * nat) : Prop :=
  ij.1 < ij.2 ∧ influences ij.1 ∧ influences ij.2.

(** "A threshold table over five hand-landmark distances": five
    different pairs of landmarks whose distances the classification
    depends on. *)
Definition five_distance_table : Prop :=
  ∃ pairs : list (nat * nat),
    length pairs = 5 ∧ NoDup pairs ∧ Forall may_threshold pairs.

(** The letter codes of [gestureToText] that no branch of
    [detectGesture] returns. *)
Definition unreachable_codes : list string :=
  ["E"; "F"; "G"; "H"; "I"; "J"].

(** The profile lookup failed: the query rejected, or it resolved with
    an error object. *)
Definition lookup_failed (q : completion Supabase.RoleResponse) : Prop :=
  match q with
  | Throw _ => True
  | Normal r => is_Some (Supabase.error r)
  end.

(** It failed with a database error other than "table does not exist"
    (42P01) and "no rows" (PGRST116). *)
Definition other_database_error (q : completion Supabase.RoleResponse)
  : Prop :=
  ∃ r err, q = Normal r ∧ Supabase.error r = Some err ∧
           Supabase.code err ≠ Some "42P01" ∧
           Supabase.code err ≠ Some "PGRST116".

(** A frame of 21 landmarks with the three finger tips that matter at
    chosen places and every other landmark at [rest]. *)
Definition frame (thumb index middle rest : Landmark.t) : list Landmark.t :=
  <[12 := middle]> (<[8 := index]> (<[4 := thumb]> (replicate 21 rest))).

Definition origin : Landmark.t := Landmark.mk 0 0 0.

(** Two frames of a closed hand: the tips of thumb, index and middle
    finger close together, the rest of the hand elsewhere. *)
Definition fist : list Landmark.t :=
  frame (Landmark.mk 0.5 0.5 0) (Landmark.mk 0.52 0.5 0)
        (Landmark.mk 0.5 0.53 0) origin.

Definition fist_elsewhere : list Landmark.t :=
  frame (Landmark.mk 0.1 0.1 0.3) (Landmark.mk 0.1 0.15 0.3)
        (Landmark.mk 0.12 0.1 0.3) (Landmark.mk 0.9 0.9 0.9).

(** A frame with the thumb tip 0.15 away from the index tip. *)
Definition half_open : list Landmark.t :=
  frame (Landmark.mk 0.5 0.5 0) (Landmark.mk 0.65 0.5 0)
        (Landmark.mk 0.5 0.53 0) origin.

(** A profile lookup that fails with an expired token. *)
Definition jwt_expired : completion Supabase.RoleResponse :=
  Normal {| Supabase.data := None;
            Supabase.error :=
              Some {| Supabase.code := Some "PGRST301";
                      Supabase.message := "JWT expired" |} |}.

(** A profile lookup that finds no row. *)
Definition no_rows : completion Supabase.RoleResponse :=
  Normal {| Supabase.data := None;
            Supabase.error :=
              Some {| Supabase.code := Some "PGRST116";
                      Supabase.message := "JSON object requested, multiple (or no) rows returned" |} |}.

Definition current_user : completion Supabase.UserResponse :=
  Normal {| Supabase.user_data :=
              Some {| Supabase.user_id := "u-1";
                      Supabase.user_email := "ada@example.org" |};
            Supabase.user_error := None |}.

(** The row the auth service stores for a new account. *)
Definition ada : Database.auth_user :=
  {| Database.au_id := "u-1"; Database.au_email := Some "ada@example.org" |}.

Definition empty_database : Database.t :=
  {| Database.auth_users := ∅; Database.user_profiles := ∅ |}.

Definition signed_out : AuthContext.state :=
  AuthContext.mkState None None None false [] [] None.

(** One recognised caption, from 0 s to 5 s of the video. *)
Definition one_caption : list VideoCaptioning.CaptionEntry :=
  [ {| VideoCaptioning.text := "hello"; VideoCaptioning.startTime := 0;
       VideoCaptioning.endTime := 5; VideoCaptioning.isEdited := None |} ].

Definition two_captions : list VideoCaptioning.CaptionEntry :=
  [ {| VideoCaptioning.text := "hello"; VideoCaptioning.startTime := 0;
       VideoCaptioning.endTime := 5; VideoCaptioning.isEdited := None |};
    {| VideoCaptioning.text := "world"; VideoCaptioning.startTime := 65.5;
       VideoCaptioning.endTime := 127.25;
       VideoCaptioning.isEdited := Some true |} ].

End Spec.

(** Further vocabulary and sample inputs. *)
Module Spec2.
Import Spec.

(** Two landmarks at the same place of the image. *)
Definition same_place (p q : option Landmark.t) : Prop :=
  (λ r, (Landmark.x r, Landmark.y r)) <$> p =
  (λ r, (Landmark.x r, Landmark.y r)) <$> q.

(** A coordinate that is not a number, such as a missing one. *)
Definition not_a_number (v : float) : Prop := is_nan v = true.

(** The closed hand of [fist], deeper in the scene and with the other
    landmarks moved. *)
Definition fist_deep : list Landmark.t :=
  frame (Landmark.mk 0.5 0.5 0.8) (Landmark.mk 0.52 0.5 0.7)
        (Landmark.mk 0.5 0.53 0.9) (Landmark.mk 0.3 0.7 0.2).

(** A frame whose thumb tip has no [x]. *)
Definition thumb_lost : list Landmark.t :=
  frame (Landmark.mk nan 0.5 0) (Landmark.mk 0.52 0.5 0)
        (Landmark.mk 0.5 0.53 0) origin.

Definition live_codes : list string := ["A"; "B"; "C"; "D"].

Definition live_phrases : list value :=
  [ VString "Hello"; VString "Thank you"; VString "Please";
    VString "Goodbye"; VString "Hello, thank you"; VString "Hello, please";
    VString "Hello, goodbye" ].

Definition one_hand (l : list Landmark.t) : LiveTranslation.Results :=
  {| LiveTranslation.r_multiHandLandmarks := Some [l];
     LiveTranslation.r_multiHandedness := Some ["Right"] |}.

(** The challenge "Basic Phrases" of the component. *)
Definition basic_phrases : Practice.Challenge.t :=
  Practice.Challenge.mk "basic_phrases" "Basic Phrases"
    "Perform 'Hello', 'Thank you', and 'Please' in sequence"
    ["A"; "B"; "C"] 90 30 false.

Definition practising (progress : list string) : Practice.cells :=
  {| Practice.score := 0; Practice.streak := 0; Practice.achievements := [];
     Practice.challenges := [basic_phrases];
     Practice.activeChallenge := Some basic_phrases;
     Practice.challengeTimer := Some 90%float;
     Practice.challengeProgress := progress |}.

Definition all_unlocked : Practice.cells :=
  {| Practice.score := 60; Practice.streak := 3;
     Practice.achievements :=
       [ Practice.Achievement.mk "first_gesture" "First Steps"
           "Successfully detect your first gesture" 1 1 10 true;
         Practice.Achievement.mk "perfect_streak" "Perfect Streak"
           "Maintain a streak of 10 correct gestures" 10 10 30 true ];
     Practice.challenges := []; Practice.activeChallenge := None;
     Practice.challengeTimer := None; Practice.challengeProgress := [] |}.

(** The user shown is the user of the session. *)
Definition coherent (s : AuthContext.state) : Prop :=
  AuthContext.user s = Supabase.session_user <$> AuthContext.session s.

(** Signed out altogether, or signed in with a role. *)
Definition settled (s : AuthContext.state) : Prop :=
  (AuthContext.session s = None ∧ AuthContext.user s = None ∧
   AuthContext.userRole s = None) ∨
  (∃ sess r, AuthContext.session s = Some sess ∧
             AuthContext.user s = Some (Supabase.session_user sess) ∧
             AuthContext.userRole s = Some r ∧ r ≠ "").

(** The sign-in call rejected or resolved with an error. *)
Definition sign_in_failed
    (resp : completion AuthHandlers.SignInResponse) : Prop :=
  match resp with
  | Throw _ => True
  | Normal r => is_Some (AuthHandlers.signin_error r)
  end.

Definition ada_session : Supabase.Session :=
  {| Supabase.session_user :=
       {| Supabase.user_id := "u-1";
          Supabase.user_email := "ada@example.org" |};
     Supabase.access_token := "token-1" |}.

Definition signed_in_as_ada : AuthContext.state :=
  AuthContext.mkState (Some ada_session)
    (Some (Supabase.session_user ada_session)) (Some "teacher") false [] []
    None.

Definition wrong_password : completion AuthHandlers.SignInResponse :=
  Normal {| AuthHandlers.signin_session := None;
            AuthHandlers.signin_error :=
              Some {| Supabase.code := Some "invalid_credentials";
                      Supabase.message := "Invalid login credentials" |} |}.

Definition network_down : completion (option Supabase.Error) :=
  Normal (Some {| Supabase.code := None;
                  Supabase.message := "Failed to fetch" |}).

(** A database with a teacher and a student. *)
Definition grace : Database.user_profile :=
  {| Database.id := "u-2"; Database.email := "grace@example.org";
     Database.role := "teacher"; Database.created_at := 100;
     Database.updated_at := 100 |}.

Definition ada_profile : Database.user_profile :=
  {| Database.id := "u-1"; Database.email := "ada@example.org";
     Database.role := "student"; Database.created_at := 200;
     Database.updated_at := 200 |}.

Definition school : Database.t :=
  {| Database.auth_users :=
       {[ "u-1" := ada;
          "u-2" := {| Database.au_id := "u-2";
                      Database.au_email := Some "grace@example.org" |} ]};
     Database.user_profiles := {[ "u-1" := ada_profile; "u-2" := grace ]} |}.

(** [school] after Ada has made herself a teacher. *)
Definition promoted : Database.t :=
  {| Database.auth_users := Database.auth_users school;
     Database.user_profiles :=
       <["u-1" := {| Database.id := "u-1";
                     Database.email := "ada@example.org";
                     Database.role := "teacher"; Database.created_at := 200;
                     Database.updated_at := 300 |}]>
         (Database.user_profiles school) |}.

(** The only timer that can be pending is the one the ref points to. *)
Definition one_timer (s : VideoCaptioning.state) : Prop :=
  ∀ i, is_Some (VideoCaptioning.timers s !! i) →
       VideoCaptioning.autoSaveTimeoutRef s = Some i.

(** Each caption ends where the next one starts. *)
Fixpoint contiguous (captions : list VideoCaptioning.CaptionEntry) : Prop :=
  match captions with
  | a :: (b :: _) as rest =>
      VideoCaptioning.endTime a = VideoCaptioning.startTime b ∧
      contiguous rest
  | _ => True
  end.

Definition blank_page : CaptionEvents.page :=
  CaptionEvents.mkPage VideoCaptioning.initial None "" "" None 0 (-1).

Definition heard : list CaptionEvents.Result :=
  [ {| CaptionEvents.transcript := "good morning";
       CaptionEvents.isFinal := true |};
    {| CaptionEvents.transcript := "every";
       CaptionEvents.isFinal := false |} ].

End Spec2.

(* ===================================================================== *)
(** * Part VII. Properties of the gesture translator                       *)
(* ===================================================================== *)

Section floats.

Lemma compare_cont_flip (p q : positive) :
  PosDef.Pos.compare_cont Eq q p = CompOpp (PosDef.Pos.compare_cont Eq p q).
Proof. symmetry. exact (Pos.compare_cont_antisym p q Eq). Qed.

Lemma SFleb_not_SFltb (a b : spec_float) :
  SFleb a b = true → SFltb b a = false.
Proof.
  unfold SFleb, SFltb.
  destruct a as [sa|sa| |sa ma ea], b as [sb|sb| |sb mb eb]; simpl;
    try (destruct sa); try (destruct sb); simpl; try done.
  all: rewrite (Z.compare_antisym ea eb); destruct (ea ?= eb)%Z; simpl;
    try done.
  all: rewrite (compare_cont_flip ma mb).
  all: by destruct (PosDef.Pos.compare_cont Eq ma mb).
Qed.

(** On doubles, [a <= b] excludes [b < a]. *)
Lemma leb_not_ltb (a b : float) :
  (a <=? b)%float = true → (b <? a)%float = false.
Proof. rewrite leb_spec, ltb_spec. apply SFleb_not_SFltb. Qed.

Lemma in_gap_thresholds (d : float) :
  Spec.in_gap d → lt d 0.1 = false ∧ gt d 0.2 = false.
Proof.
  intros [Hlo Hhi]. unfold lt, gt. split; by apply leb_not_ltb.
Qed.

End floats.

Section detectGesture.
Import Translator Spec.

Implicit Types (l : list Landmark.t) (d : float).

Lemma detectGesture_nil : detectGesture [] = Normal None.
Proof. reflexivity. Qed.

Example detectGesture_fist : detectGesture fist = Normal (Some "A").
Proof. vm_compute. reflexivity. Qed.

Example detectGesture_point :
  detectGesture
    (frame (Landmark.mk 0.5 0.5 0) (Landmark.mk 0.5 0.2 0)
           (Landmark.mk 0.52 0.5 0) origin) = Normal (Some "B").
Proof. vm_compute. reflexivity. Qed.

Example detectGesture_peace :
  detectGesture
    (frame (Landmark.mk 0.5 0.5 0) (Landmark.mk 0.52 0.5 0)
           (Landmark.mk 0.5 0.2 0) origin) = Normal (Some "C").
Proof. vm_compute. reflexivity. Qed.

Example detectGesture_open_hand :
  detectGesture
    (frame (Landmark.mk 0.5 0.5 0) (Landmark.mk 0.2 0.3 0)
           (Landmark.mk 0.8 0.2 0) origin) = Normal (Some "D").
Proof. vm_compute. reflexivity. Qed.

Example detectGesture_half_open : detectGesture half_open = Normal None.
Proof. vm_compute. reflexivity. Qed.

(** A frame without a middle finger tip: points 0 to 11 only. *)
Example detectGesture_twelve_points :
  detectGesture (replicate 12 origin) =
    Throw (TypeError "Cannot read properties of undefined (reading 'x')").
Proof. vm_compute. reflexivity. Qed.

(** With the three finger tips present, the outcome is the threshold
    table applied to the two distances. *)
Lemma detectGesture_classify l d1 d2 :
  thumbIndexDist l = Some d1 → thumbMiddleDist l = Some d2 →
  detectGesture l = Normal (classify d1 d2).
Proof.
  unfold thumbIndexDist, thumbMiddleDist, detectGesture.
  destruct (l !! 4) as [p4|] eqn:H4; [|done].
  destruct (l !! 8) as [p8|] eqn:H8; [|done].
  destruct (l !! 12) as [p12|] eqn:H12; [|done].
  simpl. intros [= <-] [= <-].
  rewrite bool_decide_eq_false_2; [done|].
  destruct l; [done | simpl; lia].
Qed.

Lemma distances_defined l :
  12 < length l →
  ∃ d1 d2, thumbIndexDist l = Some d1 ∧ thumbMiddleDist l = Some d2.
Proof.
  intros Hlen. unfold thumbIndexDist, thumbMiddleDist.
  destruct (lookup_lt_is_Some_2 l 4) as [p4 ->]; [lia|].
  destruct (lookup_lt_is_Some_2 l 8) as [p8 ->]; [lia|].
  destruct (lookup_lt_is_Some_2 l 12) as [p12 ->]; [lia|].
  simpl. eauto.
Qed.

Lemma classify_range d1 d2 :
  classify d1 d2 ∈ [Some "A"; Some "B"; Some "C"; Some "D"; None].
Proof.
  unfold classify.
  repeat (case_match; [set_solver|]). set_solver.
Qed.

Lemma classify_gap d1 d2 :
  in_gap d1 ∨ in_gap d2 → classify d1 d2 = None.
Proof.
  unfold classify.
  intros [[H1 H2]%in_gap_thresholds | [H1 H2]%in_gap_thresholds];
    rewrite H1, H2; simpl; rewrite ?andb_false_r; done.
Qed.

(** Replacing a landmark other than 4, 8 and 12 changes nothing. *)
Lemma detectGesture_insert_other l i p :
  i ≠ 4 → i ≠ 8 → i ≠ 12 →
  detectGesture (<[i := p]> l) = detectGesture l.
Proof.
  intros. unfold detectGesture.
  rewrite length_insert, !list_lookup_insert_ne by done. done.
Qed.

Lemma influences_tips i : influences i → i ∈ [4; 8; 12].
Proof.
  intros (l & p & Hne).
  destruct (decide (i = 4)) as [-> | ?]; [set_solver|].
  destruct (decide (i = 8)) as [-> | ?]; [set_solver|].
  destruct (decide (i = 12)) as [-> | ?]; [set_solver|].
  destruct Hne. by apply detectGesture_insert_other.
Qed.

Lemma may_threshold_pairs ij :
  may_threshold ij → ij ∈ [(4, 8); (4, 12); (8, 12)].
Proof.
  destruct ij as [i j]. intros (Hlt & Hi%influences_tips & Hj%influences_tips).
  simpl in *. set_unfold.
  destruct Hi as [Hi | [Hi | [Hi | []]]], Hj as [Hj | [Hj | [Hj | []]]];
    subst i j; auto; lia.
Qed.

Lemma threshold_pairs_at_most_three (pairs : list (nat * nat)) :
  NoDup pairs → Forall may_threshold pairs → (length pairs ≤ 3)%nat.
Proof.
  intros Hnd Hall.
  change 3 with (length [(4, 8); (4, 12); (8, 12)]).
  apply submseteq_length, NoDup_submseteq; [done|].
  intros ij Hin. apply may_threshold_pairs.
  by apply (proj1 (Forall_forall _ _) Hall).
Qed.

(** C1 (as stated, refuted): there are no five different landmark
    distances on which the classification depends.  Only landmarks 4, 8
    and 12 influence [detectGesture], which leaves at most three pairs. *)
Lemma detectGesture_not_five_distances : ¬ five_distance_table.
Proof.
  intros (pairs & Hlen & Hnd & Hall).
  pose proof (threshold_pairs_at_most_three pairs Hnd Hall). lia.
Qed.

(** C1 (amended): the classification of a frame that has the thumb,
    index and middle finger tips is determined by thresholding two
    distances, thumb-to-index and thumb-to-middle, against 0.1 and 0.2:
    two frames whose distances compare alike with both thresholds are
    classified alike, and the class is the if/else table of the two. *)
Theorem detectGesture_two_distances l l' d1 d2 d1' d2' :
  thumbIndexDist l = Some d1 → thumbMiddleDist l = Some d2 →
  thumbIndexDist l' = Some d1' → thumbMiddleDist l' = Some d2' →
  lt d1 0.1 = lt d1' 0.1 → gt d1 0.2 = gt d1' 0.2 →
  lt d2 0.1 = lt d2' 0.1 → gt d2 0.2 = gt d2' 0.2 →
  detectGesture l = detectGesture l' ∧
  detectGesture l = Normal (classify d1 d2).
Proof.
  intros Hi Hm Hi' Hm' E1 E2 E3 E4.
  rewrite (detectGesture_classify l d1 d2 Hi Hm).
  rewrite (detectGesture_classify l' d1' d2' Hi' Hm').
  split; [|done]. unfold classify. by rewrite E1, E2, E3, E4.
Qed.

(** C2: when the thumb-to-index and thumb-to-middle distances of a frame
    are both strictly below 0.1, [detectGesture] returns "A". *)
Theorem detectGesture_A l d1 d2 :
  thumbIndexDist l = Some d1 → thumbMiddleDist l = Some d2 →
  lt d1 0.1 = true → lt d2 0.1 = true →
  detectGesture l = Normal (Some "A").
Proof.
  intros Hi Hm H1 H2.
  rewrite (detectGesture_classify l d1 d2 Hi Hm).
  unfold classify. by rewrite H1, H2.
Qed.

(** On a non-empty array that does not reach index 12 the call does not
    return: the first read of [.x] on a missing finger tip raises the
    [TypeError]. *)
Lemma detectGesture_short_list l :
  l ≠ [] → (length l ≤ 12)%nat →
  detectGesture l =
    Throw (TypeError "Cannot read properties of undefined (reading 'x')").
Proof.
  intros Hne Hlen. unfold detectGesture.
  rewrite bool_decide_eq_false_2; [|by destruct l].
  rewrite (lookup_ge_None_2 l 12); [|lia].
  destruct (l !! 4) as [p4|]; [|done].
  destruct (l !! 8) as [p8|]; done.
Qed.

(** C9: [detectGesture] returns "A", "B", "C", "D" or null, and no other
    code.  For every list [l]: whatever the call returns is one of these
    five, never one of the codes "E" to "J"; it returns null on the
    empty list, and whenever one of the two measured distances lies
    between the thresholds 0.1 and 0.2.  The call returns on the empty
    list and on every list that reaches index 12, as the 21-point hand
    frames that the callers pass do.  On the arrays in between, which no
    caller passes, it raises a [TypeError]: no code is returned there
    either. *)
Theorem detectGesture_range l :
  (∀ r, detectGesture l = Normal r →
        r ∈ [Some "A"; Some "B"; Some "C"; Some "D"; None] ∧
        ∀ c, c ∈ unreachable_codes → r ≠ Some c) ∧
  (l = [] → detectGesture l = Normal None) ∧
  (∀ d1 d2, thumbIndexDist l = Some d1 → thumbMiddleDist l = Some d2 →
            in_gap d1 ∨ in_gap d2 → detectGesture l = Normal None) ∧
  (l = [] ∨ 12 < length l → ∃ r, detectGesture l = Normal r) ∧
  (l ≠ [] → (length l ≤ 12)%nat →
   ∃ msg, detectGesture l = Throw (TypeError msg)).
Proof.
  assert (Hcodes : ∀ r : option string,
             r ∈ [Some "A"; Some "B"; Some "C"; Some "D"; None] →
             ∀ c, c ∈ unreachable_codes → r ≠ Some c).
  { intros r Hr c Hc ->. unfold unreachable_codes in Hc.
    set_unfold. naive_solver. }
  assert (Hcases : l = [] ∨ (l ≠ [] ∧ (length l ≤ 12)%nat) ∨ 12 < length l).
  { destruct l; [by left | right].
    destruct (decide (12 < length (t :: l))); [by right | left].
    split; [done | lia]. }
  split; [|split; [|split; [|split]]].
  - intros r Hr.
    assert (r ∈ [Some "A"; Some "B"; Some "C"; Some "D"; None]) as Hin;
      [|by split; [|apply Hcodes]].
    destruct Hcases as [-> | [[Hne Hlen] | Hlen]].
    + injection Hr as <-. set_solver.
    + rewrite (detectGesture_short_list l Hne Hlen) in Hr. discriminate.
    + destruct (distances_defined l Hlen) as (d1 & d2 & Hi & Hm).
      rewrite (detectGesture_classify l d1 d2 Hi Hm) in Hr.
      injection Hr as <-. apply classify_range.
  - by intros ->.
  - intros d1 d2 Hi Hm Hgap.
    rewrite (detectGesture_classify l d1 d2 Hi Hm).
    f_equal. by apply classify_gap.
  - intros [-> | Hlen]; [by exists None|].
    destruct (distances_defined l Hlen) as (d1 & d2 & Hi & Hm).
    exists (classify d1 d2). by apply detectGesture_classify.
  - intros Hne Hlen. eexists. by apply detectGesture_short_list.
Qed.

Lemma detectGesture_two_distances_witness :
  detectGesture fist = detectGesture fist_elsewhere ∧
  detectGesture fist = Normal (Some "A").
Proof.
  apply (detectGesture_two_distances fist fist_elsewhere
           (planar_distance (Landmark.mk 0.5 0.5 0) (Landmark.mk 0.52 0.5 0))
           (planar_distance (Landmark.mk 0.5 0.5 0) (Landmark.mk 0.5 0.53 0))
           (planar_distance (Landmark.mk 0.1 0.1 0.3) (Landmark.mk 0.1 0.15 0.3))
           (planar_distance (Landmark.mk 0.1 0.1 0.3) (Landmark.mk 0.12 0.1 0.3)));
    reflexivity.
Defined.

Lemma detectGesture_A_witness : detectGesture fist = Normal (Some "A").
Proof.
  apply (detectGesture_A fist
           (planar_distance (Landmark.mk 0.5 0.5 0) (Landmark.mk 0.52 0.5 0))
           (planar_distance (Landmark.mk 0.5 0.5 0) (Landmark.mk 0.5 0.53 0)));
    reflexivity.
Defined.

Lemma detectGesture_range_witness :
  detectGesture half_open = Normal None ∧
  (∃ r, detectGesture half_open = Normal r) ∧
  (∃ msg, detectGesture (replicate 12 origin) = Throw (TypeError msg)).
Proof.
  destruct (detectGesture_range half_open) as (_ & _ & Hgap & Hret & _).
  destruct (detectGesture_range (replicate 12 origin))
    as (_ & _ & _ & _ & Hshort).
  split; [|split].
  - apply (Hgap
             (planar_distance (Landmark.mk 0.5 0.5 0)
                              (Landmark.mk 0.65 0.5 0))
             (planar_distance (Landmark.mk 0.5 0.5 0)
                              (Landmark.mk 0.5 0.53 0)));
      [reflexivity | reflexivity | left; split; reflexivity].
  - apply Hret. right. vm_compute. lia.
  - apply Hshort; [discriminate | vm_compute; lia].
Defined.

End detectGesture.

Section translation.
Import Translator Spec.

Lemma sequence_phrases (k phrase : string) :
  gestureSequences !! k = Some phrase →
  phrase ∈ ["Hello, thank you"; "Hello, please"; "Hello, goodbye";
            "Hello, yes"; "Hello, no"].
Proof.
  intros H%elem_of_list_to_map_2. set_unfold. naive_solver.
Qed.

Lemma single_translation_values (gestures : list string) :
  (∃ t, single_translation gestures = VString t ∧
        t ∈ ["Hello"; "Thank you"; "Please"; "Goodbye"; "Yes"; "No"; "Help";
             "Water"; "Food"; "Bathroom"; "Unknown gesture"]) ∨
  (∃ n, single_translation gestures = VInherited n).
Proof.
  unfold single_translation, get.
  destruct (gestureToText !! ToPropertyKey (last_elem gestures))
    as [t|] eqn:E.
  - left. apply elem_of_list_to_map_2 in E.
    assert (Ht : t ∈ ["Hello"; "Thank you"; "Please"; "Goodbye"; "Yes"; "No";
                      "Help"; "Water"; "Food"; "Bathroom"])
      by (set_unfold; naive_solver).
    exists t. split; [|set_solver].
    unfold or_else, truthy. rewrite bool_decide_eq_false_2; [done|].
    intros ->. set_unfold. naive_solver.
  - case_bool_decide.
    + right. by eexists.
    + left. exists "Unknown gesture". split; [done | set_solver].
Qed.

Example translation_of_one : getTranslationFromGestures ["B"] = VString "Thank you".
Proof. vm_compute. reflexivity. Qed.

Example translation_of_repeat :
  getTranslationFromGestures ["A"; "B"; "B"] = VString "Thank you".
Proof. vm_compute. reflexivity. Qed.

Example translation_unknown :
  getTranslationFromGestures ["A"; "Z"] = VString "Unknown gesture".
Proof. vm_compute. reflexivity. Qed.

(** C3: on the empty gesture sequence, [getTranslationFromGestures]
    returns the string "Unknown gesture". *)
Theorem getTranslationFromGestures_empty :
  getTranslationFromGestures [] = VString "Unknown gesture".
Proof. vm_compute. reflexivity. Qed.

(** C4: the sequence table has precedence.  Whenever the last two codes
    of the gesture list, joined, are a key of [gestureSequences], the
    function returns the phrase stored under that key, and this is not
    what the single-gesture translation of the last code would be. *)
Theorem sequence_lookup_takes_precedence (gestures : list string)
    (phrase : string) :
  gestureSequences !! join "" (slice_last 2 gestures) = Some phrase →
  getTranslationFromGestures gestures = VString phrase ∧
  VString phrase ≠ single_translation gestures.
Proof.
  intros Hkey. pose proof (sequence_phrases _ _ Hkey) as Hphrase.
  split.
  - unfold getTranslationFromGestures, get. rewrite Hkey.
    unfold truthy. rewrite bool_decide_eq_false_2; [done|].
    intros ->. set_unfold. naive_solver.
  - destruct (single_translation_values gestures)
      as [(t & -> & Ht) | (n & ->)]; [|done].
    intros [= ->]. set_unfold. naive_solver.
Qed.

(** C10: [clearTranslation] resets the translated text, the detected
    gestures, and the current and last gesture to their initial values,
    and leaves the translation history, like every other cell, as it
    was. *)
Theorem clearTranslation_frame (s : state) :
  translatedText (clearTranslation s) = translatedText initial ∧
  detectedGestures (clearTranslation s) = detectedGestures initial ∧
  currentGesture (clearTranslation s) = currentGesture initial ∧
  lastGesture (clearTranslation s) = lastGesture initial ∧
  translationHistory (clearTranslation s) = translationHistory s ∧
  clearTranslation s =
    mkState (isRecording s) "" (isSpeaking s) None (isProcessing s) [] None
      (lastGestureTime s) (translationHistory s).
Proof. by destruct s. Qed.

Lemma sequence_lookup_takes_precedence_witness :
  getTranslationFromGestures ["C"; "A"; "B"] = VString "Hello, thank you" ∧
  VString "Hello, thank you" ≠ single_translation ["C"; "A"; "B"].
Proof.
  apply (sequence_lookup_takes_precedence ["C"; "A"; "B"] "Hello, thank you").
  vm_compute. reflexivity.
Defined.

End translation.

(* ===================================================================== *)
(** * Part VIII. Properties of the authentication context                  *)
(* ===================================================================== *)

Section database.
Import Database.

(** A successful insert into [auth.users] leaves a profile row for the
    new id, written by the trigger with role "student". *)
Lemma insert_auth_user_profile now NEW d d' :
  insert_auth_user now NEW d = inr d' →
  ∃ m, au_email NEW = Some m ∧
       auth_users d' = <[au_id NEW := NEW]> (auth_users d) ∧
       user_profiles d' !! au_id NEW =
         Some {| id := au_id NEW; email := m; role := "student";
                 created_at := now; updated_at := now |}.
Proof.
  unfold insert_auth_user, handle_new_user, insert_user_profile.
  destruct (auth_users d !! au_id NEW); [done|].
  destruct (au_email NEW) as [m|]; [|done].
  simpl. destruct (user_profiles d !! au_id NEW); [done|].
  rewrite lookup_insert_eq. intros [= <-]. simpl.
  exists m. by rewrite lookup_insert_eq.
Qed.

(** With the trigger function of the second script the same holds for a
    user that has an e-mail address, in a database that respects the
    foreign key of [user_profiles]. *)
Lemma insert_auth_user_part_003_profile now NEW d d' m :
  referential_integrity d →
  au_email NEW = Some m →
  insert_auth_user_part_003 now NEW d = inr d' →
  user_profiles d' !! au_id NEW =
    Some {| id := au_id NEW; email := m; role := "student";
            created_at := now; updated_at := now |}.
Proof.
  intros Hfk Hm.
  unfold insert_auth_user_part_003, handle_new_user_part_003,
    insert_user_profile.
  destruct (auth_users d !! au_id NEW) as [u|] eqn:Hfresh; [done|].
  rewrite Hm. simpl.
  destruct (user_profiles d !! au_id NEW) as [pr|] eqn:Hpr.
  { destruct (Hfk (au_id NEW)) as [u Hu]; [by eexists | congruence]. }
  rewrite lookup_insert_eq. intros [= <-]. simpl.
  by rewrite lookup_insert_eq.
Qed.

End database.

Section auth.
Import Supabase AuthContext Spec.

(** C5: every sign-up that adds a user leaves a [user_profiles] row for
    that user with role "student", written by the trigger on
    [auth.users]; the [role] argument of [signUpWithEmail] has no part
    in it. *)
Theorem signup_creates_student_profile (dec : signup_decision) (now : Z)
    (mail password role : string) (s : state) (d : Database.t)
    (uid : string) :
  let d' := (signUpWithEmail dec now mail password role (s, d)).1.2 in
  Database.auth_users d !! uid = None →
  is_Some (Database.auth_users d' !! uid) →
  ∃ m, Database.user_profiles d' !! uid =
         Some {| Database.id := uid; Database.email := m;
                 Database.role := "student";
                 Database.created_at := now; Database.updated_at := now |}.
Proof.
  unfold signUpWithEmail, signUp.
  destruct dec as [e|err|NEW]; simpl.
  - intros Hnew [u Hu]. congruence.
  - intros Hnew [u Hu]. congruence.
  - destruct (Database.insert_auth_user now NEW d) as [e|d1] eqn:Hins; simpl.
    + intros Hnew [u Hu]. congruence.
    + apply insert_auth_user_profile in Hins as (m & Hm & Husers & Hprof).
      intros Hnew [u Hu]. rewrite Husers in Hu.
      destruct (decide (Database.au_id NEW = uid)) as [<- | Hne];
        [by exists m|].
      rewrite lookup_insert_ne in Hu by done. congruence.
Qed.

Lemma signup_creates_student_profile_witness :
  ∃ m, Database.user_profiles
         (signUpWithEmail (Create ada) 1700000000 "ada@example.org" "secret"
            "teacher" (signed_out, empty_database)).1.2 !! "u-1" =
       Some {| Database.id := "u-1"; Database.email := m;
               Database.role := "student";
               Database.created_at := 1700000000;
               Database.updated_at := 1700000000 |}.
Proof.
  apply (signup_creates_student_profile (Create ada) 1700000000
           "ada@example.org" "secret" "teacher" signed_out empty_database
           "u-1").
  - reflexivity.
  - vm_compute. eexists. reflexivity.
Defined.

(** C6 (as stated, refuted): in the second copy of the provider a lookup
    that fails with a database error other than 42P01 and PGRST116 makes
    [fetchUserRole] return null, not "student". *)
Lemma fetchUserRole_part_001_returns_null :
  lookup_failed jwt_expired ∧
  (AuthContext_part_001.fetchUserRole jwt_expired current_user).1 =
    Normal None ∧
  (AuthContext_part_001.fetchUserRole jwt_expired current_user).1 ≠
    Normal (Some "student").
Proof. vm_compute. split; [by eexists|]. split; [done | discriminate]. Qed.

(** C6 (amended): a failing profile lookup never propagates.  In
    [AuthContext.tsx], [fetchUserRole] returns "student" for every
    failing outcome.  In the second copy it returns "student" when the
    table is missing, when no row matches and when the query throws, and
    null for any other database error. *)
Theorem fetchUserRole_fallback (q : completion RoleResponse)
    (g : completion UserResponse) :
  lookup_failed q →
  fetchUserRole q = Normal (Some "student") ∧
  (¬ other_database_error q →
   (AuthContext_part_001.fetchUserRole q g).1 = Normal (Some "student")) ∧
  (other_database_error q →
   (AuthContext_part_001.fetchUserRole q g).1 = Normal None).
Proof.
  unfold lookup_failed, other_database_error, fetchUserRole,
    AuthContext_part_001.fetchUserRole.
  destruct q as [r|e].
  - intros [err Herr]. rewrite Herr. split; [by repeat case_bool_decide|].
    split.
    + intros Hother. repeat case_bool_decide; try done.
      * by destruct g as [[ud [ue|]]|].
      * destruct Hother. by exists r, err.
    + intros (r' & err' & [= <-] & Herr' & H1 & H2).
      rewrite Herr in Herr'. injection Herr' as <-.
      by rewrite !bool_decide_eq_false_2.
  - intros _. split; [done|]. split; [done|].
    by intros (r & err & Hq & _).
Qed.

Lemma fetchUserRole_fallback_witness :
  fetchUserRole no_rows = Normal (Some "student") ∧
  (¬ other_database_error no_rows →
   (AuthContext_part_001.fetchUserRole no_rows current_user).1 =
     Normal (Some "student")) ∧
  (other_database_error no_rows →
   (AuthContext_part_001.fetchUserRole no_rows current_user).1 =
     Normal None).
Proof.
  apply (fetchUserRole_fallback no_rows current_user).
  vm_compute. eexists. reflexivity.
Defined.

(** C7: after [signOut], whether the backend call succeeds, reports an
    error or rejects, the session, the user and the user role are null. *)
Theorem signOut_clears_session (resp : completion (option Error))
    (s : state) :
  session (signOut resp s).1 = None ∧
  user (signOut resp s).1 = None ∧
  userRole (signOut resp s).1 = None.
Proof. by destruct resp as [[err|]|e]. Qed.

End auth.

(* ===================================================================== *)
(** * Part IX. Properties of the caption auto-save                         *)
(* ===================================================================== *)

Section autosave.
Import VideoCaptioning Spec.

Example notesText_two_captions :
  notesText two_captions =
    "[0:00 - 0:05] hello" +:+ newline +:+ newline +:+ "[1:05 - 2:07] world".
Proof. vm_compute. reflexivity. Qed.

(** A timer that fires never touches local storage. *)
Lemma fire_localStorage (i : positive) (s : state) :
  localStorage (fire i s) = localStorage s.
Proof.
  unfold fire. destruct (timers s !! i) as [[[] due]|]; [|done].
  by case_bool_decide.
Qed.

Lemma captions_changed_empty (s : state) :
  captions_changed [] s = setGeneratedCaptions [] s.
Proof. reflexivity. Qed.

(** C8 (as stated, refuted): the text is in local storage as soon as the
    effect of a caption change has run, before any time has passed,
    while the only timer is still pending; a second change at the same
    instant is written as well. *)
Lemma autosave_writes_at_once :
  localStorage initial !! "videoCaptions" = None ∧
  localStorage (captions_changed one_caption initial) !! "videoCaptions" =
    Some "[0:00 - 0:05] hello" ∧
  clock (captions_changed one_caption initial) = clock initial ∧
  timers (captions_changed one_caption initial) !! 1%positive =
    Some (ClearAutoSaveStatus, 2000%Z) ∧
  localStorage
    (captions_changed two_captions (captions_changed one_caption initial))
    !! "videoCaptions" = Some (notesText two_captions) ∧
  clock (captions_changed two_captions (captions_changed one_caption initial))
    = clock initial.
Proof. vm_compute. repeat split. Qed.

(** C8 (amended): the auto-save is not debounced.  When the captions
    change to a non-empty list, the effect writes the formatted text to
    local storage at once; what it puts on a timer, replacing the timer
    armed by the previous save, is only the reset of the "Auto-saved"
    status two seconds later, and no timer writes to local storage. *)
Theorem autosave_is_immediate (captions : list CaptionEntry) (s : state) :
  captions ≠ [] →
  localStorage (captions_changed captions s) =
    <["videoCaptions" := notesText captions]> (localStorage s) ∧
  clock (captions_changed captions s) = clock s ∧
  autoSaveStatus (captions_changed captions s) = "Auto-saved" ∧
  autoSaveTimeoutRef (captions_changed captions s) = Some (next_timer s) ∧
  timers (captions_changed captions s) =
    <[next_timer s := (ClearAutoSaveStatus, (clock s + 2000)%Z)]>
      (match autoSaveTimeoutRef s with
       | Some i => delete i (timers s)
       | None => timers s
       end) ∧
  autoSaveStatus
    (fire (next_timer s) (elapse 2000 (captions_changed captions s))) = "" ∧
  ∀ i ms, localStorage (fire i (elapse ms (captions_changed captions s))) =
          localStorage (captions_changed captions s).
Proof.
  intros Hne. unfold captions_changed, autoSaveCaptions.
  rewrite bool_decide_eq_false_2 by (by destruct captions).
  destruct s as [caps status ref store now pending next]. simpl.
  destruct ref as [i|]; simpl.
  all: repeat split; try done.
  all: try (intros j ms; by rewrite fire_localStorage).
  all: unfold fire; simpl; rewrite lookup_insert_eq;
    rewrite bool_decide_eq_true_2 by lia; done.
Qed.

Lemma autosave_is_immediate_witness :
  localStorage (captions_changed one_caption initial) !! "videoCaptions" =
    Some "[0:00 - 0:05] hello" ∧
  autoSaveStatus (captions_changed one_caption initial) = "Auto-saved" ∧
  autoSaveStatus
    (fire 1 (elapse 2000 (captions_changed one_caption initial))) = "".
Proof.
  destruct (autosave_is_immediate one_caption initial)
    as (Hstore & _ & Hstatus & _ & _ & Hfire & _).
  - discriminate.
  - split; [|split].
    + rewrite Hstore. vm_compute. reflexivity.
    + exact Hstatus.
    + exact Hfire.
Defined.

End autosave.

(* ===================================================================== *)
(** * Part X. Further properties of the gesture translator                 *)
(* ===================================================================== *)

Section more_floats.

Lemma SFcompare_refl (f : spec_float) :
  f ≠ S754_nan → SFcompare f f = Some Eq.
Proof.
  destruct f as [s|s| |s m e]; try done; intros _; simpl.
  - by destruct s.
  - destruct s; rewrite Z.compare_refl;
      change (PosDef.Pos.compare_cont Eq m m) with (Pos.compare m m);
      by rewrite Pos.compare_refl.
Qed.

Lemma is_nan_Prim2SF (v : float) : is_nan v = true → Prim2SF v = S754_nan.
Proof.
  unfold is_nan. rewrite eqb_spec. unfold SFeqb. intros H.
  destruct (Prim2SF v) as [sg|sg| |sg m e] eqn:E; [| |done|].
  all: by rewrite SFcompare_refl in H.
Qed.

Lemma sub_nan (a b : float) :
  Prim2SF a = S754_nan ∨ Prim2SF b = S754_nan → Prim2SF (a - b) = S754_nan.
Proof.
  rewrite sub_spec. unfold SF64sub, SFsub.
  intros [-> | ->]; [done|]. by destruct (Prim2SF a).
Qed.

Lemma pow2_nan (a : float) :
  Prim2SF a = S754_nan → Prim2SF (Math_pow2 a) = S754_nan.
Proof. unfold Math_pow2. rewrite mul_spec. by intros ->. Qed.

Lemma add_nan (a b : float) :
  Prim2SF a = S754_nan ∨ Prim2SF b = S754_nan → Prim2SF (a + b) = S754_nan.
Proof.
  rewrite add_spec. unfold SF64add, SFadd.
  intros [-> | ->]; [done|]. by destruct (Prim2SF a).
Qed.

Lemma sqrt_nan (a : float) :
  Prim2SF a = S754_nan → Prim2SF (sqrt a) = S754_nan.
Proof. rewrite sqrt_spec. by intros ->. Qed.

(** A NaN is below nothing and above nothing. *)
Lemma nan_thresholds (d c : float) :
  Prim2SF d = S754_nan → lt d c = false ∧ gt d c = false.
Proof.
  intros H. unfold lt, gt. rewrite !ltb_spec, H. unfold SFltb. simpl.
  split; [done|]. by destruct (Prim2SF c).
Qed.

Lemma planar_distance_nan (p q : Landmark.t) :
  Spec2.not_a_number (Landmark.x p) ∨ Spec2.not_a_number (Landmark.y p) ∨
  Spec2.not_a_number (Landmark.x q) ∨ Spec2.not_a_number (Landmark.y q) →
  Prim2SF (Translator.planar_distance p q) = S754_nan.
Proof.
  unfold Spec2.not_a_number, Translator.planar_distance. intros H.
  apply sqrt_nan, add_nan.
  destruct H as [H|[H|[H|H]]]; apply is_nan_Prim2SF in H.
  - left. apply pow2_nan, sub_nan. by left.
  - right. apply pow2_nan, sub_nan. by left.
  - left. apply pow2_nan, sub_nan. by right.
  - right. apply pow2_nan, sub_nan. by right.
Qed.

End more_floats.

Section more_detectGesture.
Import Translator Spec Spec2.

Implicit Types (l : list Landmark.t).

(** What [detectGesture] returns is one of the four codes or null. *)
Lemma detectGesture_returns l r :
  detectGesture l = Normal r →
  r ∈ [Some "A"; Some "B"; Some "C"; Some "D"; None].
Proof.
  unfold detectGesture. case_bool_decide.
  { intros [= <-]. set_solver. }
  destruct (l !! 4) as [p4|]; [|done].
  destruct (l !! 8) as [p8|]; [|done].
  destruct (l !! 12) as [p12|]; [|done].
  simpl. intros [= <-]. apply classify_range.
Qed.

(** X1: the classification looks only at the image coordinates of the
    thumb, index and middle finger tips.  Two frames, both empty or both
    not, whose landmarks 4, 8 and 12 have the same [x] and [y] (or are
    missing alike) have the same outcome, whatever their depth and their
    other landmarks. *)
Theorem detectGesture_ignores_depth l l' :
  (l = [] ↔ l' = []) →
  same_place (l !! 4) (l' !! 4) →
  same_place (l !! 8) (l' !! 8) →
  same_place (l !! 12) (l' !! 12) →
  detectGesture l = detectGesture l'.
Proof.
  intros Hnil H4 H8 H12. unfold detectGesture.
  destruct l as [|a l]; destruct l' as [|a' l'];
    [done | by destruct Hnil as [Hn _]; specialize (Hn eq_refl)
          | by destruct Hnil as [_ Hn]; specialize (Hn eq_refl) |].
  rewrite !bool_decide_eq_false_2 by (simpl; lia).
  unfold same_place in *.
  destruct ((a :: l) !! 4) as [[x4 y4 z4]|],
           ((a' :: l') !! 4) as [[x4' y4' z4']|]; try done.
  destruct ((a :: l) !! 8) as [[x8 y8 z8]|],
           ((a' :: l') !! 8) as [[x8' y8' z8']|]; try done.
  destruct ((a :: l) !! 12) as [[x12 y12 z12]|],
           ((a' :: l') !! 12) as [[x12' y12' z12']|]; try done.
  simpl in *. by simplify_eq.
Qed.

Lemma detectGesture_ignores_depth_witness :
  detectGesture fist = detectGesture fist_deep.
Proof.
  apply (detectGesture_ignores_depth fist fist_deep).
  - split; discriminate.
  - reflexivity.
  - reflexivity.
  - reflexivity.
Defined.

(** X2: a frame that has the three finger tips but a coordinate that is
    not a number among their [x] and [y] is classified null. *)
Theorem detectGesture_nan l (p4 p8 p12 : Landmark.t) :
  l !! 4 = Some p4 → l !! 8 = Some p8 → l !! 12 = Some p12 →
  Exists not_a_number
    [ Landmark.x p4; Landmark.y p4; Landmark.x p8; Landmark.y p8;
      Landmark.x p12; Landmark.y p12 ] →
  detectGesture l = Normal None.
Proof.
  intros H4 H8 H12 Hnan.
  rewrite (detectGesture_classify l (planar_distance p4 p8)
             (planar_distance p4 p12));
    [| by unfold thumbIndexDist; rewrite H4, H8
     | by unfold thumbMiddleDist; rewrite H4, H12 ].
  assert (Hd : Prim2SF (planar_distance p4 p8) = S754_nan ∨
               Prim2SF (planar_distance p4 p12) = S754_nan).
  { rewrite !Exists_cons in Hnan.
    destruct Hnan as [H|[H|[H|[H|[H|[H|H]]]]]].
    - left. apply planar_distance_nan. tauto.
    - left. apply planar_distance_nan. tauto.
    - left. apply planar_distance_nan. tauto.
    - left. apply planar_distance_nan. tauto.
    - right. apply planar_distance_nan. tauto.
    - right. apply planar_distance_nan. tauto.
    - by apply Exists_nil in H. }
  unfold classify.
  destruct Hd as [Hd|Hd].
  - destruct (nan_thresholds _ 0.1%float Hd) as [-> _].
    destruct (nan_thresholds _ 0.2%float Hd) as [_ ->]. done.
  - destruct (nan_thresholds _ 0.1%float Hd) as [-> _].
    destruct (nan_thresholds _ 0.2%float Hd) as [_ ->].
    by rewrite !andb_false_r.
Qed.

Lemma detectGesture_nan_witness : detectGesture thumb_lost = Normal None.
Proof.
  apply (detectGesture_nan thumb_lost (Landmark.mk nan 0.5 0)
           (Landmark.mk 0.52 0.5 0) (Landmark.mk 0.5 0.53 0));
    [reflexivity | reflexivity | reflexivity |].
  apply Exists_cons_hd. reflexivity.
Defined.

End more_detectGesture.

Section more_translation.
Import Translator Spec Spec2.
Local Open Scope list_scope.

(** X3: only the last two codes count.  Whatever was detected before
    them does not change the translation. *)
Theorem translation_last_two (earlier : list string) (a b : string) :
  getTranslationFromGestures (earlier ++ [a; b]) =
  getTranslationFromGestures [a; b].
Proof.
  unfold getTranslationFromGestures, slice_last, last_elem.
  rewrite length_app. simpl.
  replace (length earlier + 2 - 2) with (length earlier) by lia.
  rewrite drop_app_length.
  replace (earlier ++ [a; b]) with ((earlier ++ [a]) ++ [b])
    by (by rewrite <- app_assoc).
  by rewrite last_snoc.
Qed.

Lemma live_one (a : string) :
  a ∈ live_codes → getTranslationFromGestures [a] ∈ live_phrases.
Proof.
  unfold live_codes. rewrite !elem_of_cons, elem_of_nil.
  intros [->|[->|[->|[->|[]]]]]; vm_compute; set_solver.
Qed.

Lemma live_two (a b : string) :
  a ∈ live_codes → b ∈ live_codes →
  getTranslationFromGestures [a; b] ∈ live_phrases.
Proof.
  unfold live_codes. rewrite !elem_of_cons, !elem_of_nil.
  intros [->|[->|[->|[->|[]]]]] [->|[->|[->|[->|[]]]]];
    vm_compute; set_solver.
Qed.

(** X4: on a non-empty list of codes that [detectGesture] can return,
    the translation is one of seven phrases; it is never "Unknown
    gesture" and never a member inherited from [Object.prototype]. *)
Theorem translation_of_live_codes (gestures : list string) :
  gestures ≠ [] →
  Forall (λ g, g ∈ live_codes) gestures →
  getTranslationFromGestures gestures ∈ live_phrases.
Proof.
  intros Hne Hall.
  destruct gestures as [|g gestures _] using rev_ind; [done|].
  apply Forall_app in Hall as [Hall Hg]. apply Forall_inv in Hg.
  destruct gestures as [|g' gestures _] using rev_ind.
  - simpl. by apply live_one.
  - apply Forall_app in Hall as [_ Hg']. apply Forall_inv in Hg'.
    rewrite <- app_assoc. simpl. rewrite translation_last_two.
    by apply live_two.
Qed.

Lemma translation_of_live_codes_witness :
  getTranslationFromGestures ["D"; "A"; "C"] ∈ live_phrases.
Proof.
  apply (translation_of_live_codes ["D"; "A"; "C"]).
  - discriminate.
  - repeat constructor; vm_compute; set_solver.
Defined.

End more_translation.

Section live.
Import Spec Spec2 LiveTranslation.
Local Open Scope list_scope.

(** X5: the live handler never produces a sequence phrase.  Its closure
    is the first render's, with no current gesture and no detected
    gestures; so every frame in which a gesture is recognised is added
    to the detected gestures, also when the gesture is the one already
    shown, and the text becomes the translation of that gesture alone. *)
Theorem onResults_single_translation (closure : cells) (results : Results)
    (s : cells) (landmarks : list Landmark.t)
    (others : list (list Landmark.t)) (g : string) :
  currentGesture closure = None →
  detectedGestures closure = [] →
  r_multiHandLandmarks results = Some (landmarks :: others) →
  Translator.detectGesture landmarks = Normal (Some g) →
  (onResults closure results s).2 = Normal () ∧
  detectedGestures (onResults closure results s).1 =
    detectedGestures s ++ [g] ∧
  currentGesture (onResults closure results s).1 = Some g ∧
  translatedText (onResults closure results s).1 =
    get Translator.gestureToText g ∧
  translatedText (onResults closure results s).1 ∈
    [VString "Hello"; VString "Thank you"; VString "Please";
     VString "Goodbye"].
Proof.
  intros Hcur Hdet Hres Hg.
  pose proof (detectGesture_returns _ _ Hg) as Hcode.
  unfold onResults. rewrite Hres, Hg, Hcur, Hdet. simpl.
  assert (Hg' : g ∈ live_codes).
  { unfold live_codes. set_unfold. naive_solver. }
  unfold live_codes in Hg'. rewrite !elem_of_cons, elem_of_nil in Hg'.
  destruct Hg' as [->|[->|[->|[->|[]]]]]; vm_compute;
    repeat split; set_solver.
Qed.

Lemma onResults_single_translation_witness :
  (onResults mounted (one_hand fist)
     (mkCells None (Some "A") ["B"; "A"] (VString "Hello"))).2 = Normal () ∧
  detectedGestures
    (onResults mounted (one_hand fist)
       (mkCells None (Some "A") ["B"; "A"] (VString "Hello"))).1 =
    ["B"; "A"; "A"] ∧
  currentGesture
    (onResults mounted (one_hand fist)
       (mkCells None (Some "A") ["B"; "A"] (VString "Hello"))).1 = Some "A" ∧
  translatedText
    (onResults mounted (one_hand fist)
       (mkCells None (Some "A") ["B"; "A"] (VString "Hello"))).1 =
    get Translator.gestureToText "A" ∧
  translatedText
    (onResults mounted (one_hand fist)
       (mkCells None (Some "A") ["B"; "A"] (VString "Hello"))).1 ∈
    [VString "Hello"; VString "Thank you"; VString "Please";
     VString "Goodbye"].
Proof.
  apply (onResults_single_translation mounted (one_hand fist)
           (mkCells None (Some "A") ["B"; "A"] (VString "Hello")) fist [] "A");
    reflexivity.
Defined.

End live.

(* ===================================================================== *)
(** * Part XI. Properties of the challenges and achievements               *)
(* ===================================================================== *)

Section practice.
Import Spec2 Practice.
Local Open Scope list_scope.

Lemma every_matches_from (k : nat) (gestures newProgress : list string) :
  forallb (λ ig, bool_decide (newProgress !! ig.1 = Some ig.2))
          (imap (λ i g, (k + i, g)) gestures) = true ↔
  gestures `prefix_of` drop k newProgress.
Proof.
  revert k. induction gestures as [|g gestures IH]; intros k; simpl.
  - split; [intros _; apply prefix_nil | done].
  - rewrite andb_true_iff, bool_decide_eq_true, Nat.add_0_r.
    rewrite (imap_ext _ (λ i g0, (S k + i, g0)))
      by (intros; simpl; f_equal; lia).
    rewrite IH. split.
    + intros [Hk [rest Hrest]]. exists rest.
      rewrite (drop_S _ _ _ Hk). simpl. by rewrite Hrest.
    + intros [rest Hrest].
      destruct (drop k newProgress) as [|g' tl] eqn:Hdrop; [done|].
      simpl in Hrest. injection Hrest as -> ->.
      assert (Hk : newProgress !! k = Some g).
      { rewrite <- (Nat.add_0_r k), <- lookup_drop, Hdrop. done. }
      split; [done|]. exists rest.
      rewrite (drop_S _ _ _ Hk) in Hdrop. by injection Hdrop as ->.
Qed.

(** The index-wise test of [checkChallengeProgress] holds exactly when
    the challenge's gestures are a prefix of the progress. *)
Lemma every_matches_prefix (gestures newProgress : list string) :
  every_matches gestures newProgress = true ↔
  gestures `prefix_of` newProgress.
Proof. apply (every_matches_from 0). Qed.

(** X6: with a challenge running, [checkChallengeProgress] records the
    gesture, and it ends the challenge exactly when the challenge's
    gestures are a prefix of what has been recorded; the reward is then
    added to the score and the timer is cleared.  Otherwise only the
    recorded progress changes. *)
Theorem checkChallengeProgress_prefix (gesture : string) (s : cells)
    (active : Challenge.t) :
  activeChallenge s = Some active →
  challengeProgress (checkChallengeProgress gesture s) =
    challengeProgress s ++ [gesture] ∧
  (activeChallenge (checkChallengeProgress gesture s) = None ↔
   Challenge.gestures active `prefix_of` challengeProgress s ++ [gesture]) ∧
  (Challenge.gestures active `prefix_of` challengeProgress s ++ [gesture] →
   score (checkChallengeProgress gesture s) =
     (score s + Challenge.reward active)%float ∧
   challengeTimer (checkChallengeProgress gesture s) = None) ∧
  (¬ Challenge.gestures active `prefix_of` challengeProgress s ++ [gesture] →
   checkChallengeProgress gesture s =
     setChallengeProgress (challengeProgress s ++ [gesture]) s).
Proof.
  intros Hactive. unfold checkChallengeProgress. rewrite Hactive.
  destruct (every_matches _ _) eqn:E.
  - apply every_matches_prefix in E. simpl. repeat split; try done.
  - assert (¬ Challenge.gestures active `prefix_of`
              challengeProgress s ++ [gesture]) as Hno.
    { rewrite <- every_matches_prefix. by rewrite E. }
    simpl. rewrite Hactive. repeat split; try done.
Qed.

Lemma checkChallengeProgress_prefix_witness :
  challengeProgress (checkChallengeProgress "C" (practising ["A"; "B"])) =
    ["A"; "B"; "C"] ∧
  activeChallenge (checkChallengeProgress "C" (practising ["A"; "B"])) = None.
Proof.
  destruct (checkChallengeProgress_prefix "C" (practising ["A"; "B"])
              basic_phrases eq_refl) as (Hp & Hdone & _).
  split; [exact Hp|]. apply Hdone. by exists [].
Defined.

(** X7: a wrong gesture is never forgotten.  Once the recorded progress
    differs from the challenge at some position, no further gestures
    end the challenge: it stays active, and score, timer and challenge
    list stay as they are. *)
Theorem challenge_never_recovers (gestures : list string) (s : cells)
    (active : Challenge.t) (i : nat) (done expected : string) :
  activeChallenge s = Some active →
  challengeProgress s !! i = Some done →
  Challenge.gestures active !! i = Some expected →
  done ≠ expected →
  activeChallenge (play gestures s) = Some active ∧
  score (play gestures s) = score s ∧
  challengeTimer (play gestures s) = challengeTimer s ∧
  challenges (play gestures s) = challenges s.
Proof.
  revert s. induction gestures as [|g gestures IH]; intros s Ha Hd He Hne;
    [done|].
  assert (Hno : ¬ Challenge.gestures active `prefix_of`
                  challengeProgress s ++ [g]).
  { intros [rest Hrest].
    assert ((challengeProgress s ++ [g]) !! i = Some done) as H1
      by (by apply lookup_app_l_Some).
    rewrite Hrest in H1.
    rewrite (lookup_app_l_Some _ _ _ _ He) in H1. congruence. }
  destruct (checkChallengeProgress_prefix g s active Ha)
    as (_ & _ & _ & Hstay).
  simpl. rewrite (Hstay Hno).
  destruct (IH (setChallengeProgress (challengeProgress s ++ [g]) s))
    as (H1 & H2 & H3 & H4); try done.
  simpl. by apply lookup_app_l_Some.
Qed.

Lemma challenge_never_recovers_witness :
  activeChallenge (play ["A"; "B"; "C"] (practising ["B"])) =
    Some basic_phrases ∧
  score (play ["A"; "B"; "C"] (practising ["B"])) = score (practising ["B"]) ∧
  challengeTimer (play ["A"; "B"; "C"] (practising ["B"])) =
    challengeTimer (practising ["B"]) ∧
  challenges (play ["A"; "B"; "C"] (practising ["B"])) =
    challenges (practising ["B"]).
Proof.
  apply (challenge_never_recovers ["A"; "B"; "C"] (practising ["B"])
           basic_phrases 0 "B" "A");
    [reflexivity | reflexivity | reflexivity | discriminate].
Defined.

Lemma advance_unlocked (streak : float) (a : Achievement.t) :
  Achievement.unlocked a = true → advance streak a = a.
Proof. unfold advance. by intros ->. Qed.

Lemma award_unlocked (streak : float) (a : Achievement.t) (sc : float) :
  Achievement.unlocked a = true → award streak a sc = sc.
Proof. unfold award. intros ->. by rewrite andb_false_r. Qed.

(** X8: rewards are granted once.  When every achievement is unlocked,
    [updateAchievements] changes nothing: no progress moves and the
    score stays. *)
Theorem updateAchievements_all_unlocked (gesture : string) (s : cells) :
  Forall (λ a, Achievement.unlocked a = true) (achievements s) →
  updateAchievements gesture s = s.
Proof.
  intros Hall. unfold updateAchievements, setScore, setAchievements.
  destruct s as [sc st achs chs act tm pr]. simpl in *. f_equal.
  - revert sc. induction Hall as [|a achs Ha Hall IH]; intros sc; [done|].
    simpl. rewrite (award_unlocked _ _ _ Ha). apply IH.
  - induction Hall as [|a achs Ha Hall IH]; [done|].
    simpl. by rewrite (advance_unlocked _ _ Ha), IH.
Qed.

Lemma updateAchievements_all_unlocked_witness :
  updateAchievements "A" all_unlocked = all_unlocked.
Proof.
  apply (updateAchievements_all_unlocked "A" all_unlocked).
  repeat constructor.
Defined.

(** X9: [updateAchievements] keeps the list in place: as many
    achievements, each with its id, title, description, total and
    reward; an unlocked achievement stays exactly as it is, so none is
    ever locked again; nothing else of the state is touched except the
    score. *)
Theorem updateAchievements_shape (gesture : string) (s : cells) :
  Forall2 (λ a a',
             Achievement.id a' = Achievement.id a ∧
             Achievement.title a' = Achievement.title a ∧
             Achievement.description a' = Achievement.description a ∧
             Achievement.total a' = Achievement.total a ∧
             Achievement.reward a' = Achievement.reward a ∧
             (Achievement.unlocked a = true → a' = a))
    (achievements s) (achievements (updateAchievements gesture s)) ∧
  streak (updateAchievements gesture s) = streak s ∧
  challenges (updateAchievements gesture s) = challenges s ∧
  activeChallenge (updateAchievements gesture s) = activeChallenge s ∧
  challengeProgress (updateAchievements gesture s) = challengeProgress s.
Proof.
  split; [|done]. simpl.
  induction (achievements s) as [|a achs IH]; simpl; constructor; [|done].
  unfold advance. destruct (Achievement.unlocked a); [done|].
  repeat split; done.
Qed.

End practice.

(* ===================================================================== *)
(** * Part XII. Further properties of the authentication context           *)
(* ===================================================================== *)

Section more_auth.
Import Supabase AuthContext AuthHandlers Spec Spec2.

(** [fetchUserRole] of [AuthContext.tsx] always resolves, with a role
    that is not empty. *)
Lemma fetchUserRole_role (q : completion RoleResponse) :
  ∃ r, fetchUserRole q = Normal (Some r) ∧ r ≠ "".
Proof.
  unfold fetchUserRole. destruct q as [[d [err|]]|e]; simpl.
  - exists "student". by repeat case_bool_decide.
  - unfold role_or_student. destruct d as [[r|]|].
    + case_bool_decide; eauto.
    + by exists "student".
    + by exists "student".
  - by exists "student".
Qed.

Lemma adopt_session_role (sess : Session) (q : completion RoleResponse)
    (s : state) :
  ∃ r, r ≠ "" ∧
       adopt_session sess q s =
         (setUserRole (Some r)
            (setUser (Some (session_user sess)) (setSession (Some sess) s)),
          Normal ()).
Proof.
  destruct (fetchUserRole_role q) as (r & Hr & Hne).
  exists r. split; [done|]. unfold adopt_session. by rewrite Hr.
Qed.

(** X10: a sign-in that returns a session resolves with that session,
    its user and a role in the state, and the role is never null or
    empty: it is the stored role, or "student" when the lookup fails. *)
Theorem signInWithEmail_success (resp : completion SignInResponse)
    (query : completion RoleResponse) (s : state) (sess : Session) :
  resp = Normal {| signin_session := Some sess; signin_error := None |} →
  (signInWithEmail resp query s).2 = Normal () ∧
  session (signInWithEmail resp query s).1 = Some sess ∧
  user (signInWithEmail resp query s).1 = Some (session_user sess) ∧
  ∃ r, userRole (signInWithEmail resp query s).1 = Some r ∧ r ≠ "" ∧
       fetchUserRole query = Normal (Some r).
Proof.
  intros ->. unfold signInWithEmail. simpl.
  destruct (fetchUserRole_role query) as (r & Hr & Hne).
  unfold adopt_session. rewrite Hr. simpl. eauto 10.
Qed.

Lemma signInWithEmail_success_witness :
  (signInWithEmail
     (Normal {| signin_session := Some ada_session; signin_error := None |})
     jwt_expired signed_out).2 = Normal () ∧
  session
    (signInWithEmail
       (Normal {| signin_session := Some ada_session; signin_error := None |})
       jwt_expired signed_out).1 = Some ada_session ∧
  user
    (signInWithEmail
       (Normal {| signin_session := Some ada_session; signin_error := None |})
       jwt_expired signed_out).1 = Some (session_user ada_session) ∧
  ∃ r, userRole
         (signInWithEmail
            (Normal {| signin_session := Some ada_session;
                       signin_error := None |})
            jwt_expired signed_out).1 = Some r ∧ r ≠ "" ∧
       fetchUserRole jwt_expired = Normal (Some r).
Proof.
  apply (signInWithEmail_success _ jwt_expired signed_out ada_session).
  reflexivity.
Defined.

(** X11: a sign-in that fails changes neither session, user nor role;
    it shows one destructive toast and rejects. *)
Theorem signInWithEmail_failure (resp : completion SignInResponse)
    (query : completion RoleResponse) (s : state) :
  sign_in_failed resp →
  session (signInWithEmail resp query s).1 = session s ∧
  user (signInWithEmail resp query s).1 = user s ∧
  userRole (signInWithEmail resp query s).1 = userRole s ∧
  (∃ e, (signInWithEmail resp query s).2 = Throw e) ∧
  ∃ t, toasts (signInWithEmail resp query s).1 = t :: toasts s ∧
       variant t = Some "destructive".
Proof.
  unfold sign_in_failed, signInWithEmail.
  destruct resp as [[sess [err|]]|e]; simpl.
  - intros _. eauto 10.
  - by intros [? ?].
  - intros _. eauto 10.
Qed.

Lemma signInWithEmail_failure_witness :
  session (signInWithEmail wrong_password no_rows signed_in_as_ada).1 =
    Some ada_session ∧
  userRole (signInWithEmail wrong_password no_rows signed_in_as_ada).1 =
    Some "teacher".
Proof.
  destruct (signInWithEmail_failure wrong_password no_rows signed_in_as_ada)
    as (Hs & _ & Hr & _).
  - vm_compute. eexists. reflexivity.
  - split; [exact Hs | exact Hr].
Defined.

(** X12: after [getInitialSession] the provider is settled: signed out
    with session, user and role all null, or signed in with the session,
    its user and a non-empty role.  It never rejects. *)
Theorem getInitialSession_settled (got : completion (option Session))
    (query : completion RoleResponse) (s : state) :
  settled (getInitialSession got query s).
Proof.
  unfold getInitialSession, settled.
  destruct got as [[sess|]|e]; simpl; [|by left..].
  destruct (adopt_session_role sess query (setIsLoading true s))
    as (r & Hne & ->).
  right. by exists sess, r.
Qed.

(** X13: every handler keeps the user in step with the session: if the
    user is the session's user before, it is afterwards, for sign-in,
    sign-up, both versions of sign-out, the initial session check and
    the auth listener. *)
Theorem handlers_keep_user_coherent (s : state) :
  coherent s →
  (∀ resp query, coherent (signInWithEmail resp query s).1) ∧
  (∀ dec now mail password role d,
     coherent (signUpWithEmail dec now mail password role (s, d)).1.1) ∧
  (∀ resp, coherent (signOut resp s).1) ∧
  (∀ resp, coherent (AuthHandlers_part_001.signOut resp s).1) ∧
  (∀ got query, coherent (getInitialSession got query s)) ∧
  (∀ role event currentSession query,
     coherent (onAuthStateChange role event currentSession query s)).
Proof.
  intros Hs. unfold coherent in *. repeat split.
  - intros resp query. unfold signInWithEmail.
    destruct resp as [[[sess|] [err|]]|e]; simpl; try done.
    by destruct (adopt_session_role sess query (setIsLoading true s))
      as (r & _ & ->).
  - intros dec now mail password role d. unfold signUpWithEmail, signUp.
    destruct dec as [e|err|NEW]; simpl; try done.
    by destruct (Database.insert_auth_user now NEW d).
  - intros resp. by destruct resp as [[err|]|e].
  - intros resp. by destruct resp as [[err|]|e].
  - intros got query. unfold getInitialSession.
    destruct got as [[sess|]|e]; simpl; try done.
    by destruct (adopt_session_role sess query (setIsLoading true s))
      as (r & _ & ->).
  - intros role event currentSession query. unfold onAuthStateChange.
    destruct (fetchUserRole_role query) as (r & Hr & _).
    destruct currentSession as [sess|];
      repeat (case_bool_decide; simpl; try done);
      unfold adopt_session; rewrite ?Hr; simpl; try done.
    destruct (no_role role); rewrite ?Hr; done.
Qed.

Lemma handlers_keep_user_coherent_witness :
  coherent (signOut network_down signed_in_as_ada).1 ∧
  coherent
    (onAuthStateChange None "TOKEN_REFRESHED" (Some ada_session) no_rows
       signed_in_as_ada).
Proof.
  destruct (handlers_keep_user_coherent signed_in_as_ada)
    as (_ & _ & Hout & _ & _ & Hlisten).
  - reflexivity.
  - split; [apply Hout | apply Hlisten].
Defined.

(** X14: no handler leaves the loading flag without a reset.  On every
    outcome, each handler arms exactly one timer, of one second, that
    sets [isLoading] back to false. *)
Theorem handlers_arm_loading_reset (s : state) :
  (∀ resp query,
     timeouts (signInWithEmail resp query s).1 =
       (ResetLoading, 1000%Z) :: timeouts s) ∧
  (∀ dec now mail password role d,
     timeouts (signUpWithEmail dec now mail password role (s, d)).1.1 =
       (ResetLoading, 1000%Z) :: timeouts s) ∧
  (∀ resp, timeouts (signOut resp s).1 =
             (ResetLoading, 1000%Z) :: timeouts s) ∧
  (∀ got query,
     timeouts (getInitialSession got query s) =
       (ResetLoading, 1000%Z) :: timeouts s) ∧
  (∀ role event currentSession query,
     timeouts (onAuthStateChange role event currentSession query s) =
       (ResetLoading, 1000%Z) :: timeouts s).
Proof.
  repeat split.
  - intros resp query. unfold signInWithEmail.
    destruct resp as [[[sess|] [err|]]|e]; simpl; try done.
    by destruct (adopt_session_role sess query (setIsLoading true s))
      as (r & _ & ->).
  - intros dec now mail password role d. unfold signUpWithEmail, signUp.
    destruct dec as [e|err|NEW]; simpl; try done.
    by destruct (Database.insert_auth_user now NEW d).
  - intros resp. by destruct resp as [[err|]|e].
  - intros got query. unfold getInitialSession.
    destruct got as [[sess|]|e]; simpl; try done.
    by destruct (adopt_session_role sess query (setIsLoading true s))
      as (r & _ & ->).
  - intros role event currentSession query. unfold onAuthStateChange.
    destruct (fetchUserRole_role query) as (r & Hr & _).
    destruct currentSession as [sess|];
      repeat (case_bool_decide; simpl; try done);
      unfold adopt_session; rewrite ?Hr; simpl; try done.
    destruct (no_role role); rewrite ?Hr; done.
Qed.

(** X15: [signOut] of [AuthContext.tsx] resolves exactly when the
    backend call resolves without an error.  Only then is the page sent
    to "/"; otherwise the location is untouched, a destructive toast is
    shown and the call rejects. *)
Theorem signOut_outcome (resp : completion (option Error)) (s : state) :
  ((signOut resp s).2 = Normal () ↔ resp = Normal None) ∧
  (resp = Normal None → location_href (signOut resp s).1 = Some "/") ∧
  (resp ≠ Normal None →
   location_href (signOut resp s).1 = location_href s ∧
   ∃ t, toasts (signOut resp s).1 = t :: toasts s ∧
        variant t = Some "destructive").
Proof.
  destruct resp as [[err|]|e]; simpl; repeat split; try done; eauto.
Qed.

Lemma signOut_outcome_witness :
  location_href (signOut network_down signed_in_as_ada).1 = None ∧
  (signOut network_down signed_in_as_ada).2 ≠ Normal ().
Proof.
  destruct (signOut_outcome network_down signed_in_as_ada)
    as (Hiff & _ & Hfail).
  destruct Hfail as [Hloc _]; [discriminate|].
  split; [exact Hloc|]. intros H. apply Hiff in H. discriminate.
Defined.

(** X16: in the second copy of the provider, a failed sign-out keeps
    the user signed in: session, user and role are cleared only after
    the backend call has succeeded. *)
Theorem signOut_part_001_failure_keeps_session
    (resp : completion (option Error)) (s : state) :
  resp ≠ Normal None →
  session (AuthHandlers_part_001.signOut resp s).1 = session s ∧
  user (AuthHandlers_part_001.signOut resp s).1 = user s ∧
  userRole (AuthHandlers_part_001.signOut resp s).1 = userRole s ∧
  ∃ e, (AuthHandlers_part_001.signOut resp s).2 = Throw e.
Proof.
  destruct resp as [[err|]|e]; simpl; intros H; try done; eauto.
Qed.

Lemma signOut_part_001_failure_keeps_session_witness :
  session (AuthHandlers_part_001.signOut network_down signed_in_as_ada).1 =
    Some ada_session ∧
  userRole (AuthHandlers_part_001.signOut network_down signed_in_as_ada).1 =
    Some "teacher".
Proof.
  destruct (signOut_part_001_failure_keeps_session network_down
              signed_in_as_ada) as (Hs & _ & Hr & _).
  - discriminate.
  - split; [exact Hs | exact Hr].
Defined.

End more_auth.

(* ===================================================================== *)
(** * Part XIII. Properties of the policies and triggers                   *)
(* ===================================================================== *)

Section policies.
Import Database Policies Spec Spec2.

Lemma school_consistent : consistent school.
Proof.
  intros uid row H. unfold school in *. simpl in *.
  destruct (decide (uid = "u-1")) as [->|H1].
  { rewrite lookup_insert_eq in H. injection H as <-.
    repeat split; [set_solver | by eexists]. }
  rewrite lookup_insert_ne in H by done.
  destruct (decide (uid = "u-2")) as [->|H2].
  { rewrite lookup_singleton_eq in H. injection H as <-.
    repeat split; [set_solver|].
    rewrite lookup_insert_ne by done. rewrite lookup_singleton_eq.
    by eexists. }
  by rewrite lookup_singleton_ne in H.
Qed.

(** Under the policies a signed-in user sees one row at most, the own
    one. *)
Lemma own_rows (m : gmap string user_profile) (u : string) :
  (∀ k row, m !! k = Some row → id row = k) →
  filter (own_row (Some u)) (map snd (map_to_list m)) ≡ₚ
    option_list (m !! u).
Proof.
  induction m as [|k v m Hk _ IH] using map_first_key_ind; intros Hkeys.
  { by rewrite map_to_list_empty. }
  rewrite map_to_list_insert by done. simpl.
  assert (Hv : id v = k) by (apply Hkeys; by rewrite lookup_insert_eq).
  assert (IH' : filter (own_row (Some u)) (map snd (map_to_list m)) ≡ₚ
                option_list (m !! u)).
  { apply IH. intros k' row' H'. apply Hkeys.
    rewrite lookup_insert_ne; [done|]. intros <-. congruence. }
  rewrite filter_cons. unfold own_row at 1. case_decide as Hown.
  - injection Hown as ->. rewrite Hv, lookup_insert_eq.
    rewrite Hv in IH'. by rewrite IH', Hk.
  - rewrite lookup_insert_ne by (intros ->; by rewrite Hv in Hown).
    done.
Qed.

Lemma readable_own (d : t) (u : string) :
  consistent d →
  readable (Some u) d = option_list (user_profiles d !! u).
Proof.
  intros Hd. unfold readable.
  assert (H : filter (own_row (Some u))
                (map snd (map_to_list (user_profiles d))) ≡ₚ
              option_list (user_profiles d !! u)).
  { apply own_rows. intros k row Hrow. by apply Hd. }
  destruct (user_profiles d !! u) as [row|]; simpl in *.
  - by apply Permutation_singleton_r.
  - by apply Permutation_nil_r.
Qed.

Lemma readable_anonymous (d : t) : readable None d = [].
Proof.
  unfold readable. induction (map snd (map_to_list (user_profiles d)))
    as [|row rows IH]; [done|].
  rewrite filter_cons. unfold own_row at 1. by case_decide.
Qed.

(** X17: the constraints are kept.  In a database where every profile
    is stored under its id, has role "student" or "teacher" and belongs
    to a user, the same holds after a user is inserted (with the trigger
    of either script) and after a role update through the policies. *)
Theorem statements_keep_consistent (d d' : t) (now : Z) :
  consistent d →
  (∀ NEW, insert_auth_user now NEW d = inr d' → consistent d') ∧
  (∀ NEW, insert_auth_user_part_003 now NEW d = inr d' → consistent d') ∧
  (∀ auth_uid userId r,
     update_role auth_uid userId r now d = inr d' → consistent d').
Proof.
  intros Hd.
  assert (Hins : ∀ NEW,
    auth_users d !! au_id NEW = None →
    ∀ d1, insert_user_profile now (au_id NEW) (au_email NEW) "student"
            {| auth_users := <[au_id NEW := NEW]> (auth_users d);
               user_profiles := user_profiles d |} = inr d1 →
          consistent d1).
  { intros NEW Hfresh d1. unfold insert_user_profile.
    destruct (au_email NEW) as [m|]; [|done]. simpl.
    destruct (user_profiles d !! au_id NEW); [done|].
    rewrite lookup_insert_eq. intros [= <-] uid row. simpl.
    destruct (decide (au_id NEW = uid)) as [<-|Hne].
    - rewrite !lookup_insert_eq. intros [= <-].
      repeat split; [set_solver | by eexists].
    - rewrite !lookup_insert_ne by done. apply Hd. }
  assert (Hkeep : consistent
            {| auth_users := auth_users d;
               user_profiles := user_profiles d |}) by (by destruct d).
  split; [|split].
  - intros NEW. unfold insert_auth_user, handle_new_user.
    destruct (auth_users d !! au_id NEW) eqn:Hfresh; [done|]. by apply Hins.
  - intros NEW. unfold insert_auth_user_part_003, handle_new_user_part_003.
    destruct (auth_users d !! au_id NEW) eqn:Hfresh; [done|].
    destruct (insert_user_profile _ _ _ _ _) as [e|d1] eqn:E.
    + intros [= <-] uid row. simpl. intros Hrow.
      destruct (Hd uid row Hrow) as (H1 & H2 & [u Hu]).
      repeat split; [done..|].
      destruct (decide (au_id NEW = uid)) as [<-|Hne]; [congruence|].
      rewrite lookup_insert_ne by done. by eexists.
    + intros [= <-]. by apply (Hins NEW).
  - intros auth_uid userId r. unfold update_role.
    destruct (user_profiles d !! userId) as [row|] eqn:Hrow;
      [|by intros [= <-]].
    case_bool_decide; [|by intros [= <-]].
    destruct (bool_decide (r ∈ ["student"; "teacher"])) eqn:Hr; [|done].
    apply bool_decide_eq_true in Hr. simpl. intros [= <-] uid row'. simpl.
    destruct (Hd userId row Hrow) as (H1 & H2 & H3).
    destruct (decide (userId = uid)) as [<-|Hne].
    + rewrite lookup_insert_eq. intros [= <-]. by repeat split.
    + rewrite lookup_insert_ne by done. apply Hd.
Qed.

Lemma statements_keep_consistent_witness : consistent promoted.
Proof.
  destruct (statements_keep_consistent school promoted 300 school_consistent)
    as (_ & _ & Hupd).
  apply (Hupd (Some "u-1") "u-1" "teacher").
  vm_compute. reflexivity.
Defined.

(** X18: nobody can change another user's profile.  A role update sent
    by anyone but the owner of the row, or by nobody, leaves the
    database as it is and reports no error. *)
Theorem update_role_other_user (auth_uid : option string)
    (userId r : string) (now : Z) (d : t) :
  consistent d →
  auth_uid ≠ Some userId →
  update_role auth_uid userId r now d = inr d.
Proof.
  intros Hd Hother. unfold update_role.
  destruct (user_profiles d !! userId) as [row|] eqn:Hrow; [|done].
  destruct (Hd userId row Hrow) as (Hid & _).
  rewrite bool_decide_eq_false_2; [done|].
  unfold own_row. by rewrite Hid.
Qed.

Lemma update_role_other_user_witness :
  update_role (Some "u-2") "u-1" "teacher" 300 school = inr school.
Proof.
  apply (update_role_other_user (Some "u-2") "u-1" "teacher" 300 school).
  - exact school_consistent.
  - discriminate.
Defined.

(** X19: the owner can change the own role, also from "student" to
    "teacher".  The update succeeds for both roles, keeps id, e-mail
    and creation time, stamps [updated_at] with the time of the update,
    and touches no other row. *)
Theorem update_role_own (u r : string) (now : Z) (d : t)
    (row : user_profile) :
  consistent d →
  user_profiles d !! u = Some row →
  r ∈ ["student"; "teacher"] →
  ∃ d', update_role (Some u) u r now d = inr d' ∧
        user_profiles d' !! u =
          Some {| id := u; email := email row; role := r;
                  created_at := created_at row; updated_at := now |} ∧
        (∀ v, v ≠ u → user_profiles d' !! v = user_profiles d !! v) ∧
        auth_users d' = auth_users d.
Proof.
  intros Hd Hrow Hr. unfold update_role. rewrite Hrow.
  destruct (Hd u row Hrow) as (Hid & _).
  rewrite bool_decide_eq_true_2 by (unfold own_row; by rewrite Hid).
  rewrite bool_decide_eq_true_2 by done. simpl.
  eexists. split; [done|]. simpl. rewrite lookup_insert_eq.
  unfold update_updated_at_column. simpl. rewrite Hid.
  split; [done|]. split; [|done].
  intros v Hv. by rewrite lookup_insert_ne.
Qed.

Lemma update_role_own_witness :
  ∃ d', update_role (Some "u-1") "u-1" "teacher" 300 school = inr d' ∧
        user_profiles d' !! "u-1" =
          Some {| id := "u-1"; email := "ada@example.org";
                  role := "teacher"; created_at := 200;
                  updated_at := 300 |} ∧
        (∀ v, v ≠ "u-1" →
              user_profiles d' !! v = user_profiles school !! v) ∧
        auth_users d' = auth_users school.
Proof.
  apply (update_role_own "u-1" "teacher" 300 school ada_profile).
  - exact school_consistent.
  - reflexivity.
  - set_solver.
Defined.

(** X20: the teacher's list of students shows the signed-in user alone
    at best.  Under the read policy the query of [Students.tsx] returns
    the caller's own profile if its role is "student" and nothing
    otherwise; for a teacher the list is empty. *)
Theorem fetchStudents_own_row_only (auth_uid : option string) (d : t) :
  consistent d →
  fetchStudents auth_uid d =
    match auth_uid ≫= λ u, user_profiles d !! u with
    | Some row =>
        if bool_decide (role row = "student")
        then [ {| s_id := id row; s_email := email row;
                  s_created_at := created_at row; last_sign_in := None |} ]
        else []
    | None => []
    end.
Proof.
  intros Hd. unfold fetchStudents. destruct auth_uid as [u|]; simpl.
  - rewrite (readable_own d u Hd).
    destruct (user_profiles d !! u) as [row|]; simpl; [|done].
    rewrite filter_cons, filter_nil. case_decide.
    + by rewrite bool_decide_eq_true_2.
    + by rewrite bool_decide_eq_false_2.
  - by rewrite readable_anonymous.
Qed.

Lemma fetchStudents_own_row_only_witness :
  fetchStudents (Some "u-2") school = [].
Proof.
  rewrite (fetchStudents_own_row_only (Some "u-2") school school_consistent).
  reflexivity.
Defined.

(** X21: the role chosen at sign-up lives in the browser only.  After a
    sign-up that resolves, the provider's state holds the role passed to
    [signUpWithEmail], while the role lookup for the new user, as
    [fetchUserRole] performs it, gives "student". *)
Theorem signup_role_is_not_stored (dec : Supabase.signup_decision)
    (now : Z) (mail password role : string) (s : AuthContext.state)
    (d : t) :
  consistent d →
  (AuthContext.signUpWithEmail dec now mail password role (s, d)).2 =
    Normal () →
  ∃ NEW, dec = Supabase.Create NEW ∧
    AuthContext.userRole
      (AuthContext.signUpWithEmail dec now mail password role (s, d)).1.1 =
      Some role ∧
    AuthContext.fetchUserRole
      (Normal
         (select_role_single (Some (au_id NEW)) (au_id NEW)
            (AuthContext.signUpWithEmail dec now mail password role
               (s, d)).1.2)) = Normal (Some "student").
Proof.
  intros Hd. unfold AuthContext.signUpWithEmail, Supabase.signUp.
  destruct dec as [e|err|NEW]; simpl; [done..|].
  destruct (insert_auth_user now NEW d) as [e|d1] eqn:Hins; simpl; [done|].
  intros _. exists NEW. repeat split.
  destruct (statements_keep_consistent d d1 now Hd) as (Hcons & _).
  specialize (Hcons NEW Hins).
  apply insert_auth_user_profile in Hins as (m & Hm & _ & Hprof).
  unfold select_role_single. rewrite (readable_own d1 _ Hcons), Hprof.
  simpl. rewrite filter_cons, filter_nil. simpl.
  rewrite decide_True by done. done.
Qed.

Lemma signup_role_is_not_stored_witness :
  ∃ NEW, Supabase.Create ada = Supabase.Create NEW ∧
    AuthContext.userRole
      (AuthContext.signUpWithEmail (Supabase.Create ada) 1700000000
         "ada@example.org" "secret" "teacher"
         (signed_out, empty_database)).1.1 = Some "teacher" ∧
    AuthContext.fetchUserRole
      (Normal
         (select_role_single (Some (au_id NEW)) (au_id NEW)
            (AuthContext.signUpWithEmail (Supabase.Create ada) 1700000000
               "ada@example.org" "secret" "teacher"
               (signed_out, empty_database)).1.2)) =
      Normal (Some "student").
Proof.
  apply (signup_role_is_not_stored (Supabase.Create ada) 1700000000
           "ada@example.org" "secret" "teacher" signed_out empty_database).
  - intros uid row H. unfold empty_database in H. simpl in H.
    by rewrite lookup_empty in H.
  - reflexivity.
Defined.

End policies.

(* ===================================================================== *)
(** * Part XIV. Further properties of the captions page                    *)
(* ===================================================================== *)

Section more_captions.
Import VideoCaptioning CaptionEvents Spec Spec2.
Local Open Scope list_scope.

(** What the effect of a change to a non-empty caption list leaves. *)
Lemma captions_changed_effect (captions : list CaptionEntry) (s : state) :
  captions ≠ [] →
  captions_changed captions s =
    mkState captions "Auto-saved" (Some (next_timer s))
      (<["videoCaptions" := notesText captions]> (localStorage s)) (clock s)
      (<[next_timer s := (ClearAutoSaveStatus, (clock s + 2000)%Z)]>
         (match autoSaveTimeoutRef s with
          | Some i => delete i (timers s)
          | None => timers s
          end))
      (next_timer s + 1)%positive.
Proof.
  intros Hne. unfold captions_changed, autoSaveCaptions.
  rewrite bool_decide_eq_false_2 by (by destruct captions).
  destruct s as [caps status ref store now pending next]. simpl.
  by destruct ref.
Qed.

(** X22: choosing another video empties the caption list but not the
    saved copy: the notes written by the last auto-save stay in local
    storage, and status and timers are left alone. *)
Theorem saved_notes_survive_new_video (captions : list CaptionEntry)
    (url : string) (p : page) :
  captions ≠ [] →
  generatedCaptions
    (base (handleFileChange (Some url)
             (with_base (captions_changed captions) p))) = [] ∧
  localStorage
    (base (handleFileChange (Some url)
             (with_base (captions_changed captions) p))) !! "videoCaptions" =
    Some (notesText captions) ∧
  autoSaveStatus
    (base (handleFileChange (Some url)
             (with_base (captions_changed captions) p))) = "Auto-saved" ∧
  timers
    (base (handleFileChange (Some url)
             (with_base (captions_changed captions) p))) =
    timers (captions_changed captions (base p)).
Proof.
  intros Hne. unfold handleFileChange, with_base. cbn [base].
  rewrite captions_changed_empty.
  rewrite (captions_changed_effect captions (base p) Hne). simpl.
  by rewrite lookup_insert_eq.
Qed.

Lemma saved_notes_survive_new_video_witness :
  generatedCaptions
    (base (handleFileChange (Some "blob:lecture-2")
             (with_base (captions_changed one_caption) blank_page))) = [] ∧
  localStorage
    (base (handleFileChange (Some "blob:lecture-2")
             (with_base (captions_changed one_caption) blank_page)))
    !! "videoCaptions" = Some (notesText one_caption) ∧
  autoSaveStatus
    (base (handleFileChange (Some "blob:lecture-2")
             (with_base (captions_changed one_caption) blank_page))) =
    "Auto-saved" ∧
  timers
    (base (handleFileChange (Some "blob:lecture-2")
             (with_base (captions_changed one_caption) blank_page))) =
    timers (captions_changed one_caption (base blank_page)).
Proof.
  apply (saved_notes_survive_new_video one_caption "blob:lecture-2"
           blank_page).
  discriminate.
Defined.

(** X23: the "Auto-saved" indicator is what the timer debounces.  With
    at most the referenced timer pending, the indicator stays on for
    two seconds after a save whichever timer comes due: a timer armed by
    an earlier save has been cancelled and can no longer clear it. *)
Theorem autosave_status_stays (captions : list CaptionEntry) (s : state)
    (i : positive) (ms : Z) :
  one_timer s →
  captions ≠ [] →
  (ms < 2000)%Z →
  autoSaveStatus (fire i (elapse ms (captions_changed captions s))) =
    "Auto-saved".
Proof.
  intros Hone Hne Hms. rewrite (captions_changed_effect captions s Hne).
  unfold fire, elapse. simpl.
  destruct (decide (i = next_timer s)) as [->|Hi].
  - rewrite lookup_insert_eq. rewrite bool_decide_eq_false_2 by lia. done.
  - rewrite lookup_insert_ne by done.
    assert (Hgone : match autoSaveTimeoutRef s with
                    | Some j => delete j (timers s)
                    | None => timers s
                    end !! i = None).
    { destruct (timers s !! i) as [t|] eqn:Ht.
      - rewrite (Hone i) by (by eexists). apply lookup_delete_eq.
      - destruct (autoSaveTimeoutRef s) as [j|]; [|done].
        destruct (decide (j = i)) as [->|Hj]; [apply lookup_delete_eq|].
        by rewrite lookup_delete_ne. }
    by rewrite Hgone.
Qed.

Lemma autosave_status_stays_witness :
  autoSaveStatus
    (fire 1 (elapse 1999 (captions_changed two_captions
                            (elapse 500 (captions_changed one_caption
                                           initial))))) = "Auto-saved".
Proof.
  apply (autosave_status_stays two_captions
           (elapse 500 (captions_changed one_caption initial)) 1 1999).
  - intros i [t Ht]. vm_compute in Ht. vm_compute.
    destruct i as [i|i|]; try destruct i; try discriminate. reflexivity.
  - discriminate.
  - lia.
Defined.

(** X24: timers do not pile up.  If at most the referenced timer is
    pending, the same holds after a caption change with its auto-save,
    after time passes and after a timer fires; it holds initially. *)
Theorem one_timer_invariant (s : state) :
  one_timer s →
  (∀ captions, one_timer (captions_changed captions s)) ∧
  (∀ ms, one_timer (elapse ms s)) ∧
  (∀ i, one_timer (fire i s)).
Proof.
  intros Hone. split; [|split].
  - intros captions. destruct captions as [|c captions].
    + rewrite captions_changed_empty. exact Hone.
    + rewrite captions_changed_effect by done.
      intros i [t Ht]. simpl in *.
      destruct (decide (i = next_timer s)) as [->|Hi]; [done|].
      rewrite lookup_insert_ne in Ht by done.
      destruct (autoSaveTimeoutRef s) as [j|] eqn:Hj.
      * destruct (decide (j = i)) as [->|Hji].
        { by rewrite lookup_delete_eq in Ht. }
        rewrite lookup_delete_ne in Ht by done.
        specialize (Hone i (ex_intro _ t Ht)). congruence.
      * specialize (Hone i (ex_intro _ t Ht)). congruence.
  - intros ms. exact Hone.
  - intros i. unfold fire.
    destruct (timers s !! i) as [[cb due]|] eqn:Ht; [|exact Hone].
    case_bool_decide; [|exact Hone].
    destruct cb. intros j [t Hj]. simpl in *.
    destruct (decide (i = j)) as [->|Hij].
    { by rewrite lookup_delete_eq in Hj. }
    rewrite lookup_delete_ne in Hj by done. apply Hone. by eexists.
Qed.

Lemma one_timer_invariant_witness :
  one_timer (captions_changed one_caption initial) ∧
  one_timer (fire 1 initial).
Proof.
  destruct (one_timer_invariant initial) as (Hc & _ & Hf).
  - intros i [t Ht]. vm_compute in Ht. discriminate.
  - split; [apply Hc | apply Hf].
Defined.

(** X25: an edit is saved at once.  Editing the text of a caption of
    the list changes that caption's text, marks it edited and keeps its
    times; every other caption and the length of the list stay; and the
    auto-save that follows stores the notes of the edited list. *)
Theorem caption_edit_is_saved (index : nat) (newText : string) (s : state)
    (c : CaptionEntry) :
  generatedCaptions s !! index = Some c →
  ∃ s', handleCaptionEdit_saved index newText s = Some s' ∧
        generatedCaptions s' !! index =
          Some {| text := newText; startTime := startTime c;
                  endTime := endTime c; isEdited := Some true |} ∧
        (∀ j, j ≠ index →
              generatedCaptions s' !! j = generatedCaptions s !! j) ∧
        length (generatedCaptions s') = length (generatedCaptions s) ∧
        localStorage s' !! "videoCaptions" =
          Some (notesText (generatedCaptions s')).
Proof.
  intros Hc. unfold handleCaptionEdit_saved, handleCaptionEdit.
  rewrite Hc. simpl. eexists. split; [done|].
  set (c' := {| text := newText; startTime := startTime c;
                endTime := endTime c; isEdited := Some true |}).
  assert (Hlt : index < length (generatedCaptions s))
    by (by eapply lookup_lt_Some).
  assert (Hne : <[index := c']> (generatedCaptions s) ≠ []).
  { intros H. apply (f_equal length) in H.
    rewrite length_insert in H. simpl in H. lia. }
  rewrite (captions_changed_effect _ s Hne). simpl.
  rewrite list_lookup_insert_eq by done.
  rewrite length_insert, lookup_insert_eq.
  repeat split; try done.
  intros j Hj. by rewrite list_lookup_insert_ne.
Qed.

Lemma caption_edit_is_saved_witness :
  ∃ s', handleCaptionEdit_saved 1 "word"
          (captions_changed two_captions initial) = Some s' ∧
        localStorage s' !! "videoCaptions" =
          Some ("[0:00 - 0:05] hello" +:+ newline +:+ newline +:+
                "[1:05 - 2:07] word").
Proof.
  destruct (caption_edit_is_saved 1 "word"
              (captions_changed two_captions initial)
              {| text := "world"; startTime := 65.5; endTime := 127.25;
                 isEdited := Some true |} eq_refl)
    as (s' & Hs' & _ & _ & _ & Hstore).
  exists s'. split; [exact Hs'|].
  rewrite Hstore. vm_compute in Hs'. injection Hs' as <-.
  vm_compute. reflexivity.
Defined.

Lemma set_last_endTime_first (t : float) (c : CaptionEntry)
    (l : list CaptionEntry) :
  ∃ c' l', set_last_endTime t (c :: l) = c' :: l' ∧
           startTime c' = startTime c ∧ length l' = length l.
Proof.
  destruct l as [|b l].
  - by exists (with_endTime t c), [].
  - exists c, (set_last_endTime t (b :: l)). repeat split.
    clear c. revert b. induction l as [|a l IH]; intros b; [done|].
    change (length (b :: set_last_endTime t (a :: l)) = length (b :: a :: l)).
    simpl. f_equal. apply IH.
Qed.

Lemma push_caption_contiguous (entry : CaptionEntry)
    (prev : list CaptionEntry) :
  contiguous prev → contiguous (push_caption entry prev).
Proof.
  unfold push_caption. induction prev as [|a prev IH]; [done|].
  destruct prev as [|b prev]; [done|]. intros [Hab Hrest].
  specialize (IH Hrest).
  destruct (set_last_endTime_first (startTime entry) b prev)
    as (b' & l' & Hb & Hstart & _).
  change (set_last_endTime (startTime entry) (a :: b :: prev))
    with (a :: set_last_endTime (startTime entry) (b :: prev)).
  rewrite Hb in *. simpl. split; [congruence|]. exact IH.
Qed.

Lemma push_caption_length (entry : CaptionEntry) (prev : list CaptionEntry) :
  length (push_caption entry prev) = S (length prev).
Proof.
  unfold push_caption. rewrite length_app. simpl.
  destruct prev as [|c prev]; [done|].
  destruct (set_last_endTime_first (startTime entry) c prev)
    as (c' & l' & -> & _ & Hlen).
  simpl. lia.
Qed.

Lemma onresult_fold (now : float) (results : list Result)
    (captions : list CaptionEntry) (final interim : string) :
  contiguous captions →
  contiguous (foldl (onresult_step now) (captions, final, interim) results).1.1
  ∧ length (foldl (onresult_step now) (captions, final, interim) results).1.1
    = length captions + length (filter (λ r, isFinal r = true) results).
Proof.
  revert captions final interim.
  induction results as [|r results IH]; intros captions final interim Hc.
  - simpl. split; [done | lia].
  - simpl. rewrite filter_cons. destruct (isFinal r) eqn:Hr.
    + rewrite decide_True by done.
      destruct (IH (push_caption (caption_of now (transcript r)) captions)
                   (final +:+ transcript r +:+ " ") interim)
        as [H1 H2]; [by apply push_caption_contiguous|].
      split; [done|]. rewrite H2, push_caption_length. simpl. lia.
    + rewrite decide_False by done. by apply IH.
Qed.

(** X26: recognition keeps the captions back to back.  If each caption
    ends where the next one starts, this still holds after a recognition
    event, which adds exactly one caption per final result; without a
    video element the event changes nothing. *)
Theorem onresult_keeps_contiguous (video : option float)
    (results : list Result) (p : page) :
  contiguous (generatedCaptions (base p)) →
  contiguous (generatedCaptions (base (onresult video results p))) ∧
  length (generatedCaptions (base (onresult video results p))) =
    match video with
    | Some _ =>
        length (generatedCaptions (base p)) +
        length (filter (λ r, isFinal r = true) results)
    | None => length (generatedCaptions (base p))
    end ∧
  (video = None → onresult video results p = p).
Proof.
  intros Hc. unfold onresult. destruct video as [now|]; [|done].
  destruct (onresult_fold now results (generatedCaptions (base p))
              (finalTranscriptRef p) "" Hc) as [H1 H2].
  destruct (foldl _ _ _) as [[captions final] interim]. simpl in *.
  by repeat split.
Qed.

Lemma onresult_keeps_contiguous_witness :
  contiguous
    (generatedCaptions
       (base (onresult (Some 12.5%float) heard
                (onresult (Some 7%float) heard blank_page)))) ∧
  length
    (generatedCaptions
       (base (onresult (Some 12.5%float) heard
                (onresult (Some 7%float) heard blank_page)))) = 2.
Proof.
  destruct (onresult_keeps_contiguous (Some 12.5%float) heard
              (onresult (Some 7%float) heard blank_page))
    as (Hc & Hlen & _).
  - vm_compute. exact I.
  - split; [exact Hc|]. rewrite Hlen. vm_compute. reflexivity.
Defined.

Lemma findIndex_from_spec {A} (pred : A → bool) (i : Z) (l : list A) :
  (findIndex_from pred i l = (-1)%Z ∧ Forall (λ a, pred a = false) l) ∨
  (∃ (n : nat) (a : A),
     findIndex_from pred i l = (i + Z.of_nat n)%Z ∧ l !! n = Some a ∧
     pred a = true ∧
     ∀ m b, m < n → l !! m = Some b → pred b = false).
Proof.
  revert i. induction l as [|a l IH]; intros i; simpl.
  - left. by split.
  - destruct (pred a) eqn:Ha.
    + right. exists 0, a. rewrite Z.add_0_r. repeat split; try done.
      intros m b Hm. lia.
    + destruct (IH (i + 1)%Z) as [[H1 H2] | (n & b & H1 & H2 & H3 & H4)].
      * left. split; [done|]. by constructor.
      * right. exists (S n), b. repeat split; try done.
        { rewrite H1. lia. }
        intros m c Hm. destruct m as [|m]; simpl.
        { by intros [= <-]. }
        apply H4. lia.
Qed.

(** X27: the highlighted caption.  After a time update the active index
    is [-1] when no caption is shown at the video's time; otherwise it
    is a position of the list, the first whose caption is shown at that
    time. *)
Theorem handleTimeUpdate_first_shown (t : float) (p : page) :
  (activeCaptionIndex (handleTimeUpdate t p) = (-1)%Z ∧
   Forall (λ c, shown_at t c = false) (generatedCaptions (base p))) ∨
  (∃ (n : nat) (c : CaptionEntry),
     activeCaptionIndex (handleTimeUpdate t p) = Z.of_nat n ∧
     generatedCaptions (base p) !! n = Some c ∧
     shown_at t c = true ∧
     ∀ m b, m < n → generatedCaptions (base p) !! m = Some b →
            shown_at t b = false).
Proof.
  unfold handleTimeUpdate. simpl.
  destruct (findIndex_from_spec (shown_at t) 0 (generatedCaptions (base p)))
    as [H | (n & c & H1 & H2)]; [by left|].
  right. exists n, c. by rewrite H1.
Qed.

End more_captions.
